(** * Smart Dairy AI: the chat route's query routing, retrieval and caching

    A shallow embedding of the chat endpoint (the module that defines
    [POST], [processQuery], [analyzeQueryType], [processCSVQuery],
    [processRAGQuery], [processWebSearch], [processHybridQuery] and
    [directChat]) together with the properties its design document states
    about it.

    Text is modelled as [string] (a sequence of 8-bit code units): case
    folding and white space are those of the ASCII range, which is where
    [String.prototype.toLowerCase], [trim] and the regular expression
    class [\s] agree with the functions below. *)

From Stdlib Require Import ZArith Lia Bool Ascii DecimalString Permutation Sorted.
From stdpp Require Import base gmap strings list.

Local Open Scope Z_scope.

(** ** The string primitives the route uses *)

Module Js.

(** [c] is one of the six white-space code units of the ASCII range. *)
Definition isSpace (c : ascii) : bool := Ascii.is_space c.

Definition lowerChar (c : ascii) : ascii :=
  let n := nat_of_ascii c in
  if (Nat.leb 65 n && Nat.leb n 90)%bool then ascii_of_nat (n + 32) else c.

(** [s.toLowerCase()] *)
Fixpoint toLowerCase (s : string) : string :=
  match s with
  | EmptyString => EmptyString
  | String c r => String (lowerChar c) (toLowerCase r)
  end.

Fixpoint trimStart (s : string) : string :=
  match s with
  | EmptyString => EmptyString
  | String c r => if isSpace c then trimStart r else s
  end.

Fixpoint trimEnd (s : string) : string :=
  match s with
  | EmptyString => EmptyString
  | String c r =>
      match trimEnd r with
      | EmptyString => if isSpace c then EmptyString else String c EmptyString
      | r' => String c r'
      end
  end.

(** [s.trim()] *)
Definition trim (s : string) : string := trimEnd (trimStart s).

(** The scanner behind [s.split(/\s+/)]: [cur] is the token being read,
    in reverse; [inRun] tells that the previous code unit was white
    space, so that a run of separators closes one token only. *)
Fixpoint splitFrom (cur : list ascii) (inRun : bool) (s : string) : list string :=
  match s with
  | EmptyString => [String.string_of_list_ascii (rev cur)]
  | String c r =>
      if isSpace c then
        if inRun then splitFrom cur true r
        else String.string_of_list_ascii (rev cur) :: splitFrom [] true r
      else splitFrom (c :: cur) false r
  end.

(** [s.split(/\s+/)]: the pieces between maximal runs of white space.
    Leading or trailing white space yields an empty first or last piece,
    and the empty string yields the single piece [""]. *)
Definition splitWhitespace (s : string) : list string := splitFrom [] false s.

(** [s.includes(sub)] *)
Fixpoint includes (s sub : string) : bool :=
  String.prefix sub s ||
  match s with
  | EmptyString => false
  | String _ r => includes r sub
  end.

(** [l.join(sep)] *)
Fixpoint join (sep : string) (l : list string) : string :=
  match l with
  | [] => EmptyString
  | [x] => x
  | x :: r => x +:+ sep +:+ join sep r
  end.

(** [s.slice(0, n)] for a non-negative [n] *)
Fixpoint sliceTo (n : nat) (s : string) : string :=
  match n, s with
  | O, _ => EmptyString
  | _, EmptyString => EmptyString
  | S n', String c r => String c (sliceTo n' r)
  end.

(** JavaScript truthiness of an optional string: [undefined], [null] and
    the empty string are falsy. *)
Definition truthy (o : option string) : option string :=
  match o with
  | Some EmptyString => None
  | _ => o
  end.

(** [o || d] on optional strings *)
Definition orElse (o : option string) (d : string) : string :=
  match truthy o with
  | Some s => s
  | None => d
  end.

End Js.

(** ** Data model *)

(** What an awaited call produces: a value, or an exception carrying its
    [message]. *)
Inductive outcome (A : Type) : Type :=
| Returned (a : A)
| Thrown (message : string).
Arguments Returned {A} a.
Arguments Thrown {A} message.

Inductive Role : Type := assistant | user.

(** One element of the [messages] array of a completion request. *)
Record Message : Type := mkMessage { role : Role; content : string }.

(** One element of the array the [web_search] function returns. *)
Record SearchResult : Type := mkSearchResult {
  name : string;
  url : string;
  snippet : string
}.

Inductive Priority : Type := high | medium.

(** The objects of a [sources] array: [origin] is the object's [type]
    field (['Document'], ['Web Search'], ['CSV Analysis']) with the fields
    that come with it, [priority] is the field the hybrid path adds. *)
Inductive Origin : Type :=
| DocumentSource (fileName : string) (chunkIndex : Z)
| WebSearchSource (title : string) (link : string)
| CsvAnalysisSource (fileName : string).

Record Source : Type := mkSource { origin : Origin; priority : option Priority }.

(** [{ response, sources }] *)
Record Answer : Type := mkAnswer { response : string; sources : list Source }.

(** A row of [documentChunk] with its document included. *)
Record DocumentChunk : Type := mkChunk {
  documentId : string;
  chunkIndex : Z;
  chunkContent : string;
  documentFileName : string
}.

#[global] Instance DocumentChunk_eq_dec : EqDecision DocumentChunk.
Proof. solve_decision. Defined.

(** [{ ...chunk, score }] *)
Record ScoredChunk : Type := mkScored { chunk : DocumentChunk; score : nat }.

(** A row of [farmDataFile]. [columns] holds the array whose JSON text the
    upload route stored. *)
Record FarmDataFile : Type := mkFarmDataFile {
  fileId : string;
  fileName : string;
  filePath : string;
  columns : list string;
  uploadedAt : Z
}.

(** A row of [webSearchCache], keyed by its unique [query]; [results] is
    the array whose JSON text the row stores, [searchedAt] is in
    milliseconds since the epoch. *)
Record CacheEntry : Type := mkCacheEntry {
  results : list SearchResult;
  searchedAt : Z;
  hitCount : Z
}.

Record ChatMessage : Type := mkChatMessage {
  cmSessionId : string;
  cmRole : Role;
  cmContent : string;
  cmSources : list Source;
  cmQueryType : option string;
  cmResponseMillis : option Z
}.

Record QueryLog : Type := mkQueryLog {
  qlSessionId : string;
  qlQuery : string;
  qlQueryType : string;
  qlDocuments : list string;
  qlCsvFile : option string;
  triggeredWebSearch : bool
}.

Record ChatSession : Type := mkChatSession { sessionTitle : string; updatedAt : Z }.

(** The tables behind [db]. Lists keep the order in which the store
    returns rows when no [orderBy] is given. Reads and inserts on the
    tables succeed; an [update] of a row that does not exist throws. *)
Record Db : Type := mkDb {
  documentChunk : list DocumentChunk;
  farmDataFile : list FarmDataFile;
  webSearchCache : gmap string CacheEntry;
  chatMessage : list ChatMessage;
  queryLog : list QueryLog;
  chatSession : gmap string ChatSession
}.

(** ** External collaborators

    [E] is the state of everything outside the process: the completion
    service, the web search function, the Python executor and the clock.
    Every call may change it and may throw. *)
Class Collaborators (E : Type) : Type := {
  (** [ZAI.create(...)] *)
  zaiCreate : E -> outcome unit * E;
  (** [zai.chat.completions.create({ messages, ... })]: the value of
      [completion.choices[0]?.message?.content], [None] when the optional
      chain yields [undefined]; a response without [choices] throws. *)
  chatCompletionsCreate : list Message -> E -> outcome (option string) * E;
  (** [zai.functions.invoke('web_search', { query, num })]; [None] is a
      [null] or [undefined] result. *)
  functionsInvokeWebSearch : string -> Z -> E -> outcome (option (list SearchResult)) * E;
  (** [execAsync] on the generated analysis script, a fixed template in
      which only the file path and the query vary; returns
      [(stdout, stderr)]. *)
  execAsync : string -> string -> E -> outcome (string * string) * E;
  (** [Date.now()] *)
  dateNow : E -> Z
}.

(** ** Constants of the route *)

Definition nl : string := String (ascii_of_nat 10) EmptyString.
Definition dq : string := String (ascii_of_nat 34) EmptyString.

Definition showNat (n : nat) : string := NilZero.string_of_uint (Nat.to_uint n).

Definition FRESHNESS_MS : Z := 3600000.
Definition CANDIDATE_LIMIT : nat := 20.
Definition TOP_K : nat := 5.
Definition WEB_RESULTS : Z := 5.
Definition SEPARATOR : string := nl +:+ nl +:+ "---" +:+ nl +:+ nl.

Definition decorate (query : string) : string := "dairy farming " +:+ query.

Definition NO_FARM_DATA : string :=
  "I don't have any farm data files to analyze. Please upload CSV or Excel files from your herd management software.".
Definition NO_WEB_RESULTS : string :=
  "I couldn't find any relevant information from web search. Please try rephrasing your question or upload relevant documents.".
Definition NO_RAG_RESPONSE : string := "I could not generate a response from the documents.".
Definition NO_WEB_RESPONSE : string := "I could not generate a response from the web search results.".
Definition NO_CHAT_RESPONSE : string := "I could not generate a response.".

Definition csvErrorText (message : string) : string :=
  "I encountered an error analyzing your farm data: " +:+ message +:+
  ". Please check that the file is properly formatted.".
Definition webErrorText (message : string) : string :=
  "I encountered an error searching the web: " +:+ message +:+ ". Please try again later.".

(** ** The message lists sent to the completion service *)

Definition routingPrompt (query : string) (documentIds csvFileIds : list string) : string :=
  "Analyze this query and determine the best approach:" +:+ nl +:+ nl +:+
  "Query: " +:+ dq +:+ query +:+ dq +:+ nl +:+ nl +:+
  "Available resources:" +:+ nl +:+
  "- " +:+ showNat (length documentIds) +:+ " PDF documents (dairy manuals, scientific papers)" +:+ nl +:+
  "- " +:+ showNat (length csvFileIds) +:+ " CSV/Excel files (farm data)" +:+ nl +:+ nl +:+
  "Determine if the query needs:" +:+ nl +:+
  "1. CSV/Excel data analysis (keywords: cow, milk, production, average, data, file, csv, excel, herd, yield)" +:+ nl +:+
  "2. RAG from documents (dairy farming domain knowledge)" +:+ nl +:+
  "3. Web search (current information, latest trends)" +:+ nl +:+
  "4. Hybrid approach (both documents and web search)" +:+ nl +:+
  "5. General chat (no specific resources needed)" +:+ nl +:+ nl +:+
  "Respond with ONLY one word: csv_analysis, rag, web_search, hybrid, or general".

Definition routingMessages (query : string) (documentIds csvFileIds : list string) : list Message :=
  [ mkMessage assistant "You are a query routing assistant. Respond with ONLY one word.";
    mkMessage user (routingPrompt query documentIds csvFileIds) ].

Definition csvMessages (query analysisResult : string) : list Message :=
  [ mkMessage assistant
      "You are a dairy farm data analyst. Interpret the data analysis results and provide clear, actionable insights for dairy producers.";
    mkMessage user
      ("User Query: " +:+ query +:+ nl +:+ nl +:+ "Data Analysis Results:" +:+ nl +:+ analysisResult +:+
       nl +:+ nl +:+ "Please explain these results in clear, practical terms for a dairy farmer.") ].

Definition ragMessages (context query : string) : list Message :=
  [ mkMessage assistant
      "You are a Smart Dairy AI assistant specializing in dairy farming. Use the provided document excerpts to answer the user's question accurately. If the information is insufficient, acknowledge this limitation.";
    mkMessage user
      ("Context from dairy farm manuals and scientific papers:" +:+ nl +:+ nl +:+ context +:+ nl +:+ nl +:+
       "Question: " +:+ query +:+ nl +:+ nl +:+
       "Provide a comprehensive answer based on the context above. Cite sources when possible.") ].

Definition webMessages (context query : string) : list Message :=
  [ mkMessage assistant
      "You are a Smart Dairy AI assistant. Use the web search results to provide accurate, up-to-date information about dairy farming.";
    mkMessage user
      ("Web Search Results:" +:+ nl +:+ nl +:+ context +:+ nl +:+ nl +:+ "Question: " +:+ query +:+ nl +:+ nl +:+
       "Provide a comprehensive answer based on these search results.") ].

Definition hybridMessages (ragResponse webResponse query : string) : list Message :=
  [ mkMessage assistant
      "You are a Smart Dairy AI assistant. Combine information from both uploaded documents and web search to provide comprehensive answers.";
    mkMessage user
      ("Document-based Answer:" +:+ nl +:+ ragResponse +:+ nl +:+ nl +:+
       "Web Search Answer:" +:+ nl +:+ webResponse +:+ nl +:+ nl +:+
       "Original Question: " +:+ query +:+ nl +:+ nl +:+
       "Synthesize these answers into a comprehensive response that draws from both sources when applicable.") ].

Definition chatMessages (query : string) : list Message :=
  [ mkMessage assistant
      "You are a helpful Smart Dairy AI assistant specializing in dairy farming. Provide helpful, accurate information about dairy operations, breeding, nutrition, management, and best practices.";
    mkMessage user query ].

(** ** Scoring and ranking of chunks (the pure part of [processRAGQuery]) *)

(** [queryKeywords.reduce((acc, keyword) => acc + (content.includes(keyword) ? 1 : 0), 0)] *)
Definition keywordScore (queryKeywords : list string) (text : string) : nat :=
  fold_left (fun acc keyword => (acc + (if Js.includes text keyword then 1 else 0))%nat) queryKeywords 0%nat.

Definition queryKeywords (query : string) : list string :=
  Js.splitWhitespace (Js.toLowerCase query).

Definition scoreChunk (keywords : list string) (c : DocumentChunk) : ScoredChunk :=
  mkScored c (keywordScore keywords (Js.toLowerCase (chunkContent c))).

(** The relevance score in the words of the design document: the number
    of the query's terms that occur in the lowercased text, a term counted
    once however often the query repeats it. *)
Definition claimedScore (query text : string) : nat :=
  length (filter (fun k => Js.includes (Js.toLowerCase text) k = true)
                 (remove_dups (queryKeywords query))).

(** Stable sorting by a falling numeric key. Among the orderings of a
    list by falling key, the stable one keeps elements of equal key in
    their input order; inserting each element, from the right, in front of
    the first element whose key is not greater computes it. *)
Section SortDesc.

Context {A : Type} (key : A -> Z).

Fixpoint insertDesc (x : A) (l : list A) : list A :=
  match l with
  | [] => [x]
  | y :: r => if key x <? key y then y :: insertDesc x r else x :: y :: r
  end.

Fixpoint sortDesc (l : list A) : list A :=
  match l with
  | [] => []
  | x :: r => insertDesc x (sortDesc r)
  end.

End SortDesc.

(** [Array.prototype.sort] with the comparator [(a, b) => b.score - a.score];
    the language specifies the sort to be stable. *)
Definition sortByScore : list ScoredChunk -> list ScoredChunk :=
  sortDesc (fun c => Z.of_nat (score c)).

(** [scoredChunks.filter(c => c.score > 0).sort(...).slice(0, 5)] *)
Definition relevantChunks (query : string) (chunks : list DocumentChunk) : list ScoredChunk :=
  firstn TOP_K
    (sortByScore
       (filter (fun c => (0 < score c)%nat)
          (map (scoreChunk (queryKeywords query)) chunks))).

Definition ragContext (relevant : list ScoredChunk) : string :=
  Js.join SEPARATOR (map (fun c => chunkContent (chunk c)) relevant).

Definition chunkSource (c : ScoredChunk) : Source :=
  mkSource (DocumentSource (documentFileName (chunk c)) (chunkIndex (chunk c))) None.

Definition webContext (searchResults : list SearchResult) : string :=
  Js.join SEPARATOR (map (fun r => name r +:+ nl +:+ snippet r) searchResults).

Definition resultSource (r : SearchResult) : Source :=
  mkSource (WebSearchSource (name r) (url r)) None.

(** [{ ...s, priority }] *)
Definition withPriority (p : Priority) (s : Source) : Source :=
  mkSource (origin s) (Some p).

(** ** Effects: a world of tables and collaborators, and awaited calls *)

Section Route.

Context {E : Type} `{Collaborators E}.

Record World : Type := mkWorld { db : Db; ext : E }.

(** An awaited computation: it runs on a world, leaves a world behind and
    either returns or throws. What it wrote before throwing stays. *)
Definition Async (A : Type) : Type := World -> outcome A * World.

Definition ret {A} (a : A) : Async A := fun w => (Returned a, w).

Definition throw {A} (message : string) : Async A := fun w => (Thrown message, w).

Definition bind {A B} (m : Async A) (k : A -> Async B) : Async B :=
  fun w =>
    match m w with
    | (Returned a, w') => k a w'
    | (Thrown e, w') => (Thrown e, w')
    end.

(** [try { m } catch (error) { handler(error.message) }] *)
Definition tryCatch {A} (m : Async A) (handler : string -> Async A) : Async A :=
  fun w =>
    match m w with
    | (Returned a, w') => (Returned a, w')
    | (Thrown e, w') => handler e w'
    end.

Notation "'await' x <- m ; k" := (bind m (fun x => k))
  (at level 10, x name, m at level 100, k at level 200).

(** Lifting a collaborator call: it acts on [ext] and leaves [db] alone. *)
Definition call {A} (f : E -> outcome A * E) : Async A :=
  fun w => let '(r, e) := f (ext w) in (r, mkWorld (db w) e).

Definition now : Async Z := fun w => (Returned (dateNow (ext w)), w).

Definition readDb {A} (f : Db -> A) : Async A := fun w => (Returned (f (db w)), w).

Definition writeDb (f : Db -> Db) : Async unit :=
  fun w => (Returned tt, mkWorld (f (db w)) (ext w)).

Definition setCache (f : gmap string CacheEntry -> gmap string CacheEntry) (d : Db) : Db :=
  mkDb (documentChunk d) (farmDataFile d) (f (webSearchCache d))
       (chatMessage d) (queryLog d) (chatSession d).

(** The rows that [findMany({ where: { documentId: { in: documentIds } }, take: 20 })]
    yields: the first rows of the supplied documents, up to the limit. *)
Definition candidates (documentIds : list string) (d : Db) : list DocumentChunk :=
  firstn CANDIDATE_LIMIT (filter (fun c => documentId c ∈ documentIds) (documentChunk d)).

(** The store with another [documentChunk] table. *)
Definition setChunks (chunks : list DocumentChunk) (d : Db) : Db :=
  mkDb chunks (farmDataFile d) (webSearchCache d) (chatMessage d) (queryLog d) (chatSession d).

(** [db.documentChunk.findMany(...)] *)
Definition findManyChunks (documentIds : list string) : Async (list DocumentChunk) :=
  readDb (candidates documentIds).

(** The rows of [farmDataFile] by falling [uploadedAt]; rows uploaded at
    the same instant keep their table order. *)
Definition sortByUpload : list FarmDataFile -> list FarmDataFile :=
  sortDesc uploadedAt.

(** [findFirst({ where: { id: { in: csvFileIds } }, orderBy: { uploadedAt: 'desc' } })] *)
Definition selectFarmDataFile (csvFileIds : list string) (files : list FarmDataFile)
  : option FarmDataFile :=
  head (sortByUpload (filter (fun f => fileId f ∈ csvFileIds) files)).

Definition findFirstFarmDataFile (csvFileIds : list string) : Async (option FarmDataFile) :=
  readDb (fun d => selectFarmDataFile csvFileIds (farmDataFile d)).

(** [db.webSearchCache.findUnique({ where: { query } })] *)
Definition findUniqueCache (query : string) : Async (option CacheEntry) :=
  readDb (fun d => webSearchCache d !! query).

(** [db.webSearchCache.update({ where: { query }, data })], where [data]
    is given as the change [f] of the stored row; updating a row that
    does not exist throws. *)
Definition updateCache (query : string) (f : CacheEntry -> CacheEntry) : Async unit :=
  fun w =>
    match webSearchCache (db w) !! query with
    | Some c => writeDb (setCache (insert query (f c))) w
    | None => (Thrown "Record to update not found.", w)
    end.

(** Modelled from the spec: the column defaults of the [webSearchCache]
    table, whose schema is not part of the sources. A row created with
    [query] and [results] only gets the time of creation as its
    [searchedAt] and a hit counter of 1 (created on first fetch with
    hit counter 1). *)
Definition newCacheEntry (searchResults : list SearchResult) (createdAt : Z) : CacheEntry :=
  mkCacheEntry searchResults createdAt 1.

(** [db.webSearchCache.create({ data: { query, results } })] *)
Definition createCache (query : string) (searchResults : list SearchResult) : Async unit :=
  await t <- now;
  writeDb (setCache (insert query (newCacheEntry searchResults t))).

(** ** The route *)

(** [createZAIInstance] *)
Definition createZAIInstance : Async unit := call zaiCreate.

(** [analyzeQueryType]: the [type] of the object it returns. *)
Definition analyzeQueryType (query : string) (documentIds csvFileIds : list string)
  : Async string :=
  tryCatch
    (await completion <- call (chatCompletionsCreate (routingMessages query documentIds csvFileIds));
     ret (Js.orElse (option_map (fun s => Js.toLowerCase (Js.trim s)) completion) "general"))
    (fun _ => ret "general").

(** The first half of [processWebSearch]'s [try] block: the cache check
    and, on a miss or a stale row, the search and the write of the row.
    It yields [searchResults]. *)
Definition lookupSearchResults (query : string) : Async (list SearchResult) :=
  await cached <- findUniqueCache query;
  await t <- now;
  match cached with
  | Some c =>
      if t - searchedAt c <? FRESHNESS_MS then
        await _ <- updateCache query
                     (fun row => mkCacheEntry (results row) (searchedAt row) (hitCount row + 1));
        ret (results c)
      else
        await found <- call (functionsInvokeWebSearch (decorate query) WEB_RESULTS);
        let searchResults := default [] found in
        await t' <- now;
        await _ <- updateCache query (fun _ => mkCacheEntry searchResults t' 1);
        ret searchResults
  | None =>
      await found <- call (functionsInvokeWebSearch (decorate query) WEB_RESULTS);
      let searchResults := default [] found in
      await _ <- createCache query searchResults;
      ret searchResults
  end.

(** The second half of [processWebSearch]'s [try] block: the answer made
    from [searchResults]. *)
Definition answerFromResults (query : string) (searchResults : list SearchResult) : Async Answer :=
  if (length searchResults =? 0)%nat then ret (mkAnswer NO_WEB_RESULTS [])
  else
    await completion <- call (chatCompletionsCreate (webMessages (webContext searchResults) query));
    ret (mkAnswer (Js.orElse completion NO_WEB_RESPONSE) (map resultSource searchResults)).

(** [processWebSearch] *)
Definition processWebSearch (query : string) : Async Answer :=
  tryCatch
    (await searchResults <- lookupSearchResults query;
     answerFromResults query searchResults)
    (fun message => ret (mkAnswer (webErrorText message) [])).

(** [processRAGQuery] *)
Definition processRAGQuery (query : string) (documentIds : list string) : Async Answer :=
  tryCatch
    (await chunks <- findManyChunks documentIds;
     if (length chunks =? 0)%nat then processWebSearch query
     else
       let relevant := relevantChunks query chunks in
       if (length relevant =? 0)%nat then processWebSearch query
       else
         await completion <- call (chatCompletionsCreate (ragMessages (ragContext relevant) query));
         ret (mkAnswer (Js.orElse completion NO_RAG_RESPONSE) (map chunkSource relevant)))
    (fun _ => processWebSearch query).

(** [processCSVQuery] *)
Definition processCSVQuery (query : string) (csvFileIds : list string) : Async Answer :=
  tryCatch
    (await selected <- findFirstFarmDataFile csvFileIds;
     match selected with
     | None => ret (mkAnswer NO_FARM_DATA [])
     | Some file =>
         await out <- call (execAsync (filePath file) query);
         let analysisResult := Js.orElse (Some (fst out)) (snd out) in
         await completion <- call (chatCompletionsCreate (csvMessages query analysisResult));
         ret (mkAnswer (Js.orElse completion analysisResult)
                [mkSource (CsvAnalysisSource (fileName file)) None])
     end)
    (fun message => ret (mkAnswer (csvErrorText message) [])).

(** [processHybridQuery] *)
Definition processHybridQuery (query : string) (documentIds : list string) : Async Answer :=
  tryCatch
    (await ragResult <- processRAGQuery query documentIds;
     await webResult <- processWebSearch query;
     let combinedSources :=
       map (withPriority high) (sources ragResult) ++ map (withPriority medium) (sources webResult) in
     await completion <- call (chatCompletionsCreate
                                 (hybridMessages (response ragResult) (response webResult) query));
     ret (mkAnswer (Js.orElse completion (response ragResult)) combinedSources))
    (fun _ => processWebSearch query).

(** [directChat] *)
Definition directChat (query : string) : Async string :=
  await completion <- call (chatCompletionsCreate (chatMessages query));
  ret (Js.orElse completion NO_CHAT_RESPONSE).

(** [{ response, sources, queryType }] *)
Record QueryResult : Type := mkQueryResult {
  qrResponse : string;
  qrSources : list Source;
  queryType : string
}.

Definition tagged (queryType : string) (a : Answer) : QueryResult :=
  mkQueryResult (response a) (sources a) queryType.

(** The [switch] of [processQuery] on the classifier's [type]. *)
Definition dispatch (type query : string) (documentIds csvFileIds : list string)
  : Async QueryResult :=
  if String.eqb type "csv_analysis" then
    await r <- processCSVQuery query csvFileIds; ret (tagged "csv_analysis" r)
  else if String.eqb type "rag" then
    await r <- processRAGQuery query documentIds; ret (tagged "rag" r)
  else if String.eqb type "web_search" then
    await r <- processWebSearch query; ret (tagged "web_search" r)
  else if String.eqb type "hybrid" then
    await r <- processHybridQuery query documentIds; ret (tagged "hybrid" r)
  else
    await r <- directChat query; ret (mkQueryResult r [] "general").

(** [processQuery] *)
Definition processQuery (query : string) (documentIds csvFileIds : list string)
  : Async QueryResult :=
  await _ <- createZAIInstance;
  await type <- analyzeQueryType query documentIds csvFileIds;
  dispatch type query documentIds csvFileIds.

(** The JSON body of a chat request. *)
Record ChatRequest : Type := mkChatRequest {
  message : string;
  sessionId : string;
  documents : list string;
  csvFiles : list string
}.

Inductive HttpResponse : Type :=
| Ok200 (result : QueryResult)
| BadRequest400
| ServerError500 (details : string).

Definition createChatMessage (m : ChatMessage) : Async unit :=
  writeDb (fun d => mkDb (documentChunk d) (farmDataFile d) (webSearchCache d)
                         (chatMessage d ++ [m]) (queryLog d) (chatSession d)).

Definition createQueryLog (l : QueryLog) : Async unit :=
  writeDb (fun d => mkDb (documentChunk d) (farmDataFile d) (webSearchCache d)
                         (chatMessage d) (queryLog d ++ [l]) (chatSession d)).

(** [db.chatSession.update({ where: { id }, data })]; updating a session
    that does not exist throws. *)
Definition updateChatSession (id : string) (s : ChatSession) : Async unit :=
  fun w =>
    match chatSession (db w) !! id with
    | Some _ =>
        writeDb (fun d => mkDb (documentChunk d) (farmDataFile d) (webSearchCache d)
                               (chatMessage d) (queryLog d) (insert id s (chatSession d))) w
    | None => (Thrown "Record to update not found.", w)
    end.

Definition sessionTitleOf (message : string) : string :=
  Js.sliceTo 50 message +:+ (if (50 <? String.length message)%nat then "..." else "").

(** The log row written for a processed query. *)
Definition logRow (body : ChatRequest) (result : QueryResult) : QueryLog :=
  mkQueryLog (sessionId body) (message body) (queryType result) (documents body)
    (head (csvFiles body))
    (String.eqb (queryType result) "web_search" || String.eqb (queryType result) "hybrid").

(** [POST] of the chat endpoint. The stored response time is the elapsed
    number of milliseconds (the route divides it by 1000). *)
Definition POST (body : ChatRequest) : Async HttpResponse :=
  await startTime <- now;
  tryCatch
    (if String.eqb (message body) "" || String.eqb (sessionId body) "" then ret BadRequest400
     else
       await _ <- createChatMessage
                    (mkChatMessage (sessionId body) user (message body) [] None None);
       await result <- processQuery (message body) (documents body) (csvFiles body);
       await t <- now;
       await _ <- createChatMessage
                    (mkChatMessage (sessionId body) assistant (qrResponse result) (qrSources result)
                       (Some (queryType result)) (Some (t - startTime)));
       await _ <- createQueryLog (logRow body result);
       await t' <- now;
       await _ <- updateChatSession (sessionId body)
                    (mkChatSession (sessionTitleOf (message body)) t');
       ret (Ok200 result))
    (fun details => ret (ServerError500 details)).

End Route.

Arguments World E : clear implicits.
Arguments Async E A : clear implicits.

(** The five strategy labels. *)
Definition strategyLabels : list string :=
  ["csv_analysis"; "rag"; "web_search"; "hybrid"; "general"].

(** ** A scripted outside world, for running the route on examples *)

(** The collaborators answer from fixed tables; the clock advances by one
    second per external call, and the web searches made are logged. *)
Record Script : Type := mkScript {
  clock : Z;
  completionOf : list Message -> outcome (option string);
  searchOf : string -> outcome (option (list SearchResult));
  pythonOf : string -> string -> outcome (string * string);
  searchLog : list (string * Z)
}.

Definition tick (e : Script) : Script :=
  mkScript (clock e + 1000) (completionOf e) (searchOf e) (pythonOf e) (searchLog e).

Definition logSearch (query : string) (num : Z) (e : Script) : Script :=
  mkScript (clock e + 1000) (completionOf e) (searchOf e) (pythonOf e)
           (searchLog e ++ [(query, num)]).

#[global] Instance scripted : Collaborators Script := {
  zaiCreate e := (Returned tt, e);
  chatCompletionsCreate messages e := (completionOf e messages, tick e);
  functionsInvokeWebSearch query num e := (searchOf e query, logSearch query num e);
  execAsync path query e := (pythonOf e path query, tick e);
  dateNow e := clock e
}.

Definition emptyDb : Db := mkDb [] [] ∅ [] [] ∅.

(** The text of the last message of a request. *)
Definition lastContent (messages : list Message) : string :=
  match last messages with
  | Some m => content m
  | None => ""
  end.

(** ** Example worlds *)

Definition noPython : string -> string -> outcome (string * string) :=
  fun _ _ => Thrown "python3: command not found".

(** A completion service that answers the routing request with [label]
    and every other request with [other]. *)
Definition routerSays (label : string) (other : outcome (option string))
    (messages : list Message) : outcome (option string) :=
  if String.prefix "Analyze this query" (lastContent messages) then Returned (Some label)
  else other.

(** The router answers with a word that is no strategy label. *)
Definition bananaWorld : World Script :=
  mkWorld emptyDb
    (mkScript 0 (routerSays " Banana " (Returned (Some "Hello!"))) (fun _ => Returned None)
       noPython []).

Definition waterChunk : DocumentChunk :=
  mkChunk "d1" 0 "Cows need clean water" "manual.pdf".

(** One document chunk on file; the document answer succeeds, the web
    search finds nothing, and the synthesis request throws. *)
Definition hybridWorld : World Script :=
  mkWorld (mkDb [waterChunk] [] ∅ [] [] ∅)
    (mkScript 0
       (fun messages =>
          if String.prefix "Document-based Answer" (lastContent messages)
          then Thrown "synthesis timed out"
          else Returned (Some "Answer from the manual"))
       (fun _ => Returned (Some []))
       noPython []).

(** The same world with a synthesis request that returns no content. *)
Definition silentHybridWorld : World Script :=
  mkWorld (mkDb [waterChunk] [] ∅ [] [] ∅)
    (mkScript 0
       (fun messages =>
          if String.prefix "Document-based Answer" (lastContent messages)
          then Returned None
          else Returned (Some "Answer from the manual"))
       (fun _ => Returned (Some []))
       noPython []).

Definition mastitisResult : SearchResult :=
  mkSearchResult "Mastitis control" "https://example.org/mastitis" "Dry cow therapy".

(** A cache row for the query ["mastitis"], fetched at time 1000 and
    reused 3 times since. *)
Definition cachedEntry : CacheEntry := mkCacheEntry [mastitisResult] 1000 4.

Definition cacheWorld (t : Z) : World Script :=
  mkWorld (mkDb [] [] (<["mastitis" := cachedEntry]> ∅) [] [] ∅)
    (mkScript t (fun _ => Returned (Some "Treat early.")) (fun _ => Returned (Some [mastitisResult]))
       noPython []).

(** A session on file, no document, and a router that picks the document
    path. *)
Definition ragOnlyWorld : World Script :=
  mkWorld (mkDb [] [] ∅ [] [] (<["s1" := mkChatSession "New Conversation" 0]> ∅))
    (mkScript 0 (routerSays "rag" (Returned (Some "Treat early.")))
       (fun _ => Returned (Some [mastitisResult])) noPython []).

Definition fileA : FarmDataFile := mkFarmDataFile "A" "january.csv" "/uploads/january.csv" ["cow_id"] 100.
Definition fileB : FarmDataFile := mkFarmDataFile "B" "february.csv" "/uploads/february.csv" ["cow_id"] 200.

Definition farmWorld : World Script :=
  mkWorld (mkDb [] [fileB; fileA] ∅ [] [] ∅)
    (mkScript 0 (fun _ => Returned (Some "Yields are stable."))
       (fun _ => Returned None) (fun _ _ => Returned ("mean 31.2", "")) []).

(** Twenty chunks that mention the cow, then one that matches every
    keyword of the query ["cow milk yield"]. *)
Definition cowChunks : list DocumentChunk :=
  map (fun i => mkChunk "d1" (Z.of_nat i) "the cow" "manual.pdf") (seq 0 20).

Definition bestChunk : DocumentChunk := mkChunk "d1" 20 "cow milk yield" "manual.pdf".

Definition crowdedWorld : World Script :=
  mkWorld (mkDb (cowChunks ++ [bestChunk]) [] ∅ [] [] ∅)
    (mkScript 0 (fun _ => Returned (Some "Answer from the manual")) (fun _ => Returned None)
       noPython []).

(** ** What a path may write *)

(** [d'] differs from [d] at most in the cache row of [query]. *)
Definition touchesOnlyCacheRow (query : string) (d d' : Db) : Prop :=
  documentChunk d' = documentChunk d /\
  farmDataFile d' = farmDataFile d /\
  chatMessage d' = chatMessage d /\
  queryLog d' = queryLog d /\
  chatSession d' = chatSession d /\
  forall q, q <> query -> webSearchCache d' !! q = webSearchCache d !! q.

(** [m] writes at most the cache row of [query], however it ends. *)
Definition writesOnlyRow {E A} (query : string) (m : Async E A) : Prop :=
  forall w, touchesOnlyCacheRow query (db w) (db (snd (m w))).

(** The cache has no row for [query], or one at least as old as the
    freshness window: the lookup will search. *)
Definition isMiss {E} `{Collaborators E} (query : string) (w : World E) : Prop :=
  webSearchCache (db w) !! query = None \/
  (exists c, webSearchCache (db w) !! query = Some c /\
             FRESHNESS_MS <= dateNow (ext w) - searchedAt c).

(** ** The document upload route: chunking of extracted text *)

Module JsIndex.

(** [s.length] *)
Definition len (s : string) : Z := Z.of_nat (String.length s).

(** A relative index of [slice], resolved against the length: negative
    indices count from the end, and the result is clamped to the string. *)
Definition resolve (s : string) (i : Z) : Z :=
  if i <? 0 then Z.max (len s + i) 0 else Z.min i (len s).

(** [s.slice(b, e)] *)
Definition slice (s : string) (b e : Z) : string :=
  String.substring (Z.to_nat (resolve s b)) (Z.to_nat (resolve s e - resolve s b)) s.

Fixpoint lastIndexFrom (i : Z) (s : string) (c : ascii) (found : Z) : Z :=
  match s with
  | EmptyString => found
  | String d r => lastIndexFrom (i + 1) r c (if Ascii.eqb d c then i else found)
  end.

(** [s.lastIndexOf(c)] for a one-character [c]: the last index at which
    [c] occurs, or -1. *)
Definition lastIndexOf (s : string) (c : ascii) : Z := lastIndexFrom 0 s c (-1).

End JsIndex.

(** The chunk cut in one turn of the loop of [createTextChunks], before
    it is trimmed: the slice from [start] of at most [chunkSize]
    characters, cut back to its last period or line feed when it does not
    reach the end of the text and that break lies beyond half the chunk
    size. *)
Definition chunkAt (text : string) (chunkSize start : Z) : string :=
  let stop := Z.min (start + chunkSize) (JsIndex.len text) in
  let chunk := JsIndex.slice text start stop in
  if stop <? JsIndex.len text then
    let lastPeriod := JsIndex.lastIndexOf chunk "."%char in
    let lastNewline := JsIndex.lastIndexOf chunk (ascii_of_nat 10) in
    let breakPoint := Z.max lastPeriod lastNewline in
    if chunkSize <? 2 * breakPoint then JsIndex.slice chunk 0 (breakPoint + 1) else chunk
  else chunk.

(** One turn of the loop, on the pair of [start] and [chunks]: the
    trimmed chunk is pushed and [start] moves on by the untrimmed chunk's
    length less the overlap. *)
Definition chunkStep (text : string) (chunkSize overlap : Z) (st : Z * list string)
  : Z * list string :=
  let chunk := chunkAt text chunkSize (fst st) in
  (fst st + JsIndex.len chunk - overlap, snd st ++ [Js.trim chunk]).

(** The loop of [createTextChunks], run for at most [fuel] turns: [None]
    when the loop is still running after them. *)
Fixpoint chunkLoop (fuel : nat) (text : string) (chunkSize overlap : Z)
    (st : Z * list string) : option (list string) :=
  if fst st <? JsIndex.len text then
    match fuel with
    | O => None
    | S fuel' =>
        let st' := chunkStep text chunkSize overlap st in
        if JsIndex.len text <=? fst st' then Some (snd st')
        else chunkLoop fuel' text chunkSize overlap st'
    end
  else Some (snd st).

(** [createTextChunks(text, chunkSize, overlap)] *)
Definition createTextChunks (fuel : nat) (text : string) (chunkSize overlap : Z)
  : option (list string) :=
  option_map (filter (fun c => (50 < String.length c)%nat))
             (chunkLoop fuel text chunkSize overlap (0, [])).

(** ** The document tables and the routes that write them *)

(** A row of [document]. *)
Record DocumentRow : Type := mkDocumentRow {
  docFileName : string;
  docFilePath : string;
  docFileType : string;
  docFileSize : Z;
  docCategory : string;
  docProcessedAt : option Z
}.

(** A row of [documentChunk] as it is stored; the last two fields are
    the [chunkSize] and [totalChunks] of its [metadata]. *)
Record ChunkRow : Type := mkChunkRow {
  rowDocumentId : string;
  rowChunkIndex : Z;
  rowContent : string;
  rowChunkSize : Z;
  rowTotalChunks : Z
}.

Record Library : Type := mkLibrary {
  documentTable : gmap string DocumentRow;
  chunkTable : list ChunkRow
}.

(** The chunk rows as the chat route reads them, each with its document
    included. *)
Definition joinedChunks (lib : Library) : list DocumentChunk :=
  omap (fun row =>
          match documentTable lib !! rowDocumentId row with
          | Some doc => Some (mkChunk (rowDocumentId row) (rowChunkIndex row) (rowContent row)
                                (docFileName doc))
          | None => None
          end)
       (chunkTable lib).

(** The text extractor behind [extractAndChunkPDF]: [execAsync] on the
    extraction script for a file path, yielding its standard output, and
    the clock. *)
Class Extraction (E : Type) : Type := {
  extractText : string -> E -> outcome string * E;
  extractionNow : E -> Z
}.

Record LibraryWorld (E : Type) : Type := mkLibraryWorld { library : Library; outside : E }.
Arguments mkLibraryWorld {E} library outside.
Arguments library {E} l.
Arguments outside {E} l.

(** The rows the loop over [chunks] creates for a document. *)
Definition chunkRows (documentId : string) (chunks : list string) : list ChunkRow :=
  imap (fun i c => mkChunkRow documentId (Z.of_nat i) c (JsIndex.len c)
                     (Z.of_nat (length chunks)))
       chunks.

Definition markProcessed (doc : DocumentRow) (t : Z) : DocumentRow :=
  mkDocumentRow (docFileName doc) (docFilePath doc) (docFileType doc) (docFileSize doc)
                (docCategory doc) (Some t).

(** [extractAndChunkPDF(filePath, documentId)], with the chunking loop
    run for at most [fuel] turns: [None] when it is still running after
    them. Every failure inside is caught and answered with 0. *)
Definition extractAndChunkPDF {E} `{Extraction E} (fuel : nat) (filePath documentId : string)
    (w : LibraryWorld E) : option (Z * LibraryWorld E) :=
  match extractText filePath (outside w) with
  | (Thrown _, e) => Some (0, mkLibraryWorld (library w) e)
  | (Returned stdout, e) =>
      let text := Js.trim stdout in
      if String.eqb text "" || (JsIndex.len text <? 100) then
        Some (0, mkLibraryWorld (library w) e)
      else
        match createTextChunks fuel text 1000 200 with
        | None => None
        | Some chunks =>
            let saved := mkLibrary (documentTable (library w))
                                   (chunkTable (library w) ++ chunkRows documentId chunks) in
            match documentTable saved !! documentId with
            | Some doc =>
                Some (Z.of_nat (length chunks),
                      mkLibraryWorld
                        (mkLibrary (insert documentId (markProcessed doc (extractionNow e))
                                      (documentTable saved))
                                   (chunkTable saved))
                        e)
            | None => Some (0, mkLibraryWorld saved e)
            end
        end
  end.

Inductive DeleteResponse : Type :=
| Deleted
| DeleteFailed (error : string).

(** [DELETE /api/documents/:id]: the chunks of the document go first,
    then its row; deleting a row that does not exist throws, and what was
    deleted before stays deleted. *)
Definition deleteDocument (id : string) (lib : Library) : DeleteResponse * Library :=
  let chunksLeft := filter (fun row => rowDocumentId row <> id) (chunkTable lib) in
  match documentTable lib !! id with
  | Some _ => (Deleted, mkLibrary (delete id (documentTable lib)) chunksLeft)
  | None => (DeleteFailed "Failed to delete document", mkLibrary (documentTable lib) chunksLeft)
  end.

(** [DELETE /api/farm-data/:id]: identifiers are unique, so the row of
    [id] is the one that goes; deleting a row that does not exist throws. *)
Definition deleteFarmData (id : string) (d : Db) : DeleteResponse * Db :=
  if bool_decide (id ∈ map fileId (farmDataFile d)) then
    (Deleted,
     mkDb (documentChunk d) (filter (fun f => fileId f <> id) (farmDataFile d))
          (webSearchCache d) (chatMessage d) (queryLog d) (chatSession d))
  else (DeleteFailed "Failed to delete farm data file", d).

(** ** More example worlds *)

(** The search finds a result, and the completion service is down. *)
Definition offlineWorld : World Script :=
  mkWorld emptyDb
    (mkScript 0 (fun _ => Thrown "model offline") (fun _ => Returned (Some [mastitisResult]))
       noPython []).

(** Two data files on file and no Python. *)
Definition brokenPythonWorld : World Script :=
  mkWorld (mkDb [] [fileB; fileA] ∅ [] [] ∅)
    (mkScript 0 (fun _ => Returned (Some "Yields are stable.")) (fun _ => Returned None)
       noPython []).

(** A session on file, a router that picks the general chat, and a
    completion service that fails on every other request. *)
Definition generalFailWorld : World Script :=
  mkWorld (mkDb [] [] ∅ [] [] (<["s1" := mkChatSession "New Conversation" 0]> ∅))
    (mkScript 0 (routerSays "general" (Thrown "model offline")) (fun _ => Returned None)
       noPython []).

Fixpoint repeatChar (n : nat) (c : ascii) : string :=
  match n with
  | O => EmptyString
  | S k => String c (repeatChar k c)
  end.

(** A text of 1500 letters without period or line feed. *)
Definition plainText : string := repeatChar 1500 "a"%char.

(** A document with two chunks, and a chunk left over from a document
    whose row is gone. *)
Definition exampleLibrary : Library :=
  mkLibrary
    (<["d1" := mkDocumentRow "manual.pdf" "/uploads/documents/1-manual.pdf" "application/pdf"
                 2048 "General" None]>
       (<["d2" := mkDocumentRow "paper.pdf" "/uploads/documents/2-paper.pdf" "application/pdf"
                    4096 "General" None]> ∅))
    [mkChunkRow "d1" 0 "Cows need clean water" 21 2;
     mkChunkRow "d2" 0 "Silage quality" 14 1;
     mkChunkRow "d1" 1 "Milk twice a day" 16 2].

(** * Properties *)

(** ** Substrings and the keyword score *)

Lemma prefix_app (p s : string) :
  String.prefix p s = true <-> exists b, s = p +:+ b.
Proof.
  revert s. induction p as [|c p IH]; intros s.
  - split; [intros _; exists s; reflexivity | intros _; destruct s; reflexivity].
  - destruct s as [|d s]; simpl.
    + split; [discriminate | intros [b Hb]; discriminate].
    + destruct (ascii_dec c d) as [->|Hne].
      * rewrite IH. split; intros [b Hb]; exists b.
        -- cbn. now rewrite Hb.
        -- cbn in Hb. now inversion Hb.
      * split; [discriminate | intros [b Hb]; cbn in Hb; inversion Hb; congruence].
Qed.

Lemma includes_substring (s sub : string) :
  Js.includes s sub = true <-> exists a b, s = a +:+ sub +:+ b.
Proof.
  induction s as [|c s IH]; cbn [Js.includes].
  - rewrite orb_false_r, prefix_app. split.
    + intros [b Hb]. exists "", b. exact Hb.
    + intros [a [b Hb]]. destruct a; [exists b; exact Hb|discriminate].
  - rewrite orb_true_iff, prefix_app, IH. split.
    + intros [[b Hb]|[a [b Hb]]].
      * exists "", b. exact Hb.
      * exists (String c a), b. cbn. now rewrite Hb.
    + intros [a [b Hb]]. destruct a as [|d a].
      * left. exists b. exact Hb.
      * right. exists a, b. cbn in Hb. now inversion Hb.
Qed.

Lemma fold_score_acc (text : string) (keywords : list string) (n : nat) :
  fold_left (fun acc keyword => (acc + (if Js.includes text keyword then 1 else 0))%nat) keywords n
  = (n + length (filter (fun k => Js.includes text k = true) keywords))%nat.
Proof.
  revert n. induction keywords as [|k r IH]; intros n; simpl.
  - lia.
  - rewrite IH, filter_cons. destruct (Js.includes text k) eqn:Hk.
    + rewrite decide_True by reflexivity. simpl. lia.
    + rewrite decide_False by discriminate. lia.
Qed.

Lemma keywordScore_count (keywords : list string) (text : string) :
  keywordScore keywords text
  = length (filter (fun k => Js.includes text k = true) keywords).
Proof. unfold keywordScore. now rewrite fold_score_acc. Qed.

Lemma keywordScore_le (keywords : list string) (text : string) :
  (keywordScore keywords text <= length keywords)%nat.
Proof. rewrite keywordScore_count. apply length_filter. Qed.

(** ** The stable sort by falling key *)

Section SortDescFacts.

Context {A : Type} (key : A -> Z).

Lemma insertDesc_perm (x : A) (l : list A) :
  Permutation (insertDesc key x l) (x :: l).
Proof.
  induction l as [|y r IH]; simpl; [reflexivity|].
  destruct (key x <? key y); [|reflexivity].
  rewrite IH. apply perm_swap.
Qed.

Lemma sortDesc_perm (l : list A) : Permutation (sortDesc key l) l.
Proof.
  induction l as [|x r IH]; simpl; [reflexivity|].
  rewrite insertDesc_perm. now constructor.
Qed.

Lemma insertDesc_sorted (x : A) (l : list A) :
  StronglySorted (fun a b => key b <= key a) l ->
  StronglySorted (fun a b => key b <= key a) (insertDesc key x l).
Proof.
  induction 1 as [|y r Hr IH Hy]; simpl.
  - repeat constructor.
  - destruct (Z.ltb_spec (key x) (key y)) as [Hlt|Hge].
    + constructor; [exact IH|].
      rewrite (Forall_forall (fun b => key b <= key y)). intros b Hb.
      apply list_elem_of_In in Hb.
      apply (Permutation_in _ (insertDesc_perm x r)) in Hb.
      destruct Hb as [<-|Hb]; [lia|].
      rewrite (Forall_forall (fun b => key b <= key y)) in Hy.
      apply Hy. now apply list_elem_of_In.
    + constructor; [now constructor|].
      constructor; [exact Hge|].
      eapply Forall_impl; [exact Hy|]. simpl. intros b Hb. lia.
Qed.

Lemma sortDesc_sorted (l : list A) :
  StronglySorted (fun a b => key b <= key a) (sortDesc key l).
Proof.
  induction l as [|x r IH]; simpl; [constructor|].
  now apply insertDesc_sorted.
Qed.

(** Stability: the elements of any one key keep their input order. *)
Lemma insertDesc_stable (k : Z) (x : A) (l : list A) :
  filter (fun a => key a = k) (insertDesc key x l)
  = filter (fun a => key a = k) (x :: l).
Proof.
  induction l as [|y r IH]; simpl; [reflexivity|].
  destruct (Z.ltb_spec (key x) (key y)) as [Hlt|Hge]; [|reflexivity].
  rewrite (filter_cons _ y), IH, !filter_cons.
  destruct (decide (key y = k)), (decide (key x = k)); try reflexivity. lia.
Qed.

Lemma sortDesc_stable (k : Z) (l : list A) :
  filter (fun a => key a = k) (sortDesc key l) = filter (fun a => key a = k) l.
Proof.
  induction l as [|x r IH]; simpl; [reflexivity|].
  rewrite insertDesc_stable, !filter_cons, IH. reflexivity.
Qed.

Lemma sortDesc_length (l : list A) : length (sortDesc key l) = length l.
Proof. apply Permutation_length, sortDesc_perm. Qed.

Lemma sortDesc_elem (x : A) (l : list A) : x ∈ sortDesc key l <-> x ∈ l.
Proof. now rewrite (sortDesc_perm l). Qed.

(** The first element of the sorted list carries a greatest key. *)
Lemma sortDesc_head (l : list A) (x : A) :
  head (sortDesc key l) = Some x -> x ∈ l /\ forall y, y ∈ l -> key y <= key x.
Proof.
  intros Hx. pose proof (sortDesc_sorted l) as Hs.
  destruct (sortDesc key l) as [|z r] eqn:Hl; [discriminate|].
  injection Hx as ->. split.
  - apply sortDesc_elem. rewrite Hl. left.
  - intros y Hy. apply sortDesc_elem in Hy. rewrite Hl in Hy.
    apply StronglySorted_inv in Hs as [_ Hall].
    apply elem_of_cons in Hy as [->|Hy]; [lia|].
    rewrite (Forall_forall (fun b => key b <= key x)) in Hall. now apply Hall.
Qed.

Lemma sortDesc_head_None (l : list A) : head (sortDesc key l) = None -> l = [].
Proof.
  intros Hn. pose proof (sortDesc_length l) as Hlen.
  destruct (sortDesc key l); [|discriminate]. now destruct l.
Qed.

(** A stable ordering by falling key is unique: two lists, each ordered
    by falling key, that hold the same elements of every key in the same
    order are equal. So every stable sort computes [sortDesc]. *)
Lemma stable_order_unique (l1 l2 : list A) :
  StronglySorted (fun a b => key b <= key a) l1 ->
  StronglySorted (fun a b => key b <= key a) l2 ->
  (forall k, filter (fun a => key a = k) l1 = filter (fun a => key a = k) l2) ->
  l1 = l2.
Proof.
  intros Hs1. revert l2. induction Hs1 as [|x r1 Hr1 IH Hx]; intros l2 Hs2 Hsame.
  - destruct l2 as [|y r2]; [reflexivity|].
    specialize (Hsame (key y)). rewrite filter_cons, decide_True in Hsame by reflexivity.
    discriminate.
  - destruct l2 as [|y r2].
    { specialize (Hsame (key x)). rewrite filter_cons, decide_True in Hsame by reflexivity.
      discriminate. }
    apply StronglySorted_inv in Hs2 as [Hr2 Hy].
    rewrite (Forall_forall (fun b => key b <= key x)) in Hx.
    rewrite (Forall_forall (fun b => key b <= key y)) in Hy.
    assert (Hyx : key y <= key x).
    { assert (Hin : y ∈ filter (fun a => key a = key y) (x :: r1)).
      { rewrite Hsame, filter_cons, decide_True by reflexivity. left. }
      apply list_elem_of_filter in Hin as [_ Hin].
      apply elem_of_cons in Hin as [->|Hin]; [lia|now apply Hx]. }
    assert (Hxy : key x <= key y).
    { assert (Hin : x ∈ filter (fun a => key a = key x) (y :: r2)).
      { rewrite <- Hsame, filter_cons, decide_True by reflexivity. left. }
      apply list_elem_of_filter in Hin as [_ Hin].
      apply elem_of_cons in Hin as [->|Hin]; [lia|now apply Hy]. }
    assert (Hk : key y = key x) by lia.
    pose proof (Hsame (key x)) as Hhead.
    rewrite !filter_cons, decide_True, decide_True in Hhead by (reflexivity || exact Hk).
    injection Hhead as -> Htail. f_equal.
    apply IH; [exact Hr2|]. intros k.
    destruct (decide (k = key y)) as [->|Hne]; [exact Htail|].
    specialize (Hsame k). rewrite !filter_cons, !decide_False in Hsame by congruence.
    exact Hsame.
Qed.

Lemma stable_sort_is_sortDesc (l sorted : list A) :
  StronglySorted (fun a b => key b <= key a) sorted ->
  (forall k, filter (fun a => key a = k) sorted = filter (fun a => key a = k) l) ->
  sorted = sortDesc key l.
Proof.
  intros Hs Hst. apply stable_order_unique; [exact Hs|apply sortDesc_sorted|].
  intros k. now rewrite Hst, sortDesc_stable.
Qed.

End SortDescFacts.

(** ** How the awaited calls of the route compose *)

Section RouteFacts.

Context {E : Type} `{Collaborators E}.

Implicit Types (w : World E) (query : string).

Ltac run := unfold bind, ret, tryCatch, now, readDb, writeDb; simpl.

Lemma call_db {A} (f : E -> outcome A * E) w : db (snd (call f w)) = db w.
Proof. unfold call. now destruct (f (ext w)). Qed.

Lemma call_returned {A} (f : E -> outcome A * E) w r e :
  f (ext w) = (r, e) -> call f w = (r, mkWorld (db w) e).
Proof. unfold call. now intros ->. Qed.

Lemma answerFromResults_db query searchResults w :
  db (snd (answerFromResults query searchResults w)) = db w.
Proof.
  unfold answerFromResults. destruct (length searchResults =? 0)%nat; [reflexivity|].
  unfold bind. 
  pose proof (call_db (chatCompletionsCreate (webMessages (webContext searchResults) query)) w) as Hdb.
  destruct (call _ w) as [[o|m] w']; exact Hdb.
Qed.

Lemma processWebSearch_unfold query w :
  processWebSearch query w
  = match lookupSearchResults query w with
    | (Returned searchResults, w1) =>
        match answerFromResults query searchResults w1 with
        | (Returned a, w2) => (Returned a, w2)
        | (Thrown m, w2) => (Returned (mkAnswer (webErrorText m) []), w2)
        end
    | (Thrown m, w1) => (Returned (mkAnswer (webErrorText m) []), w1)
    end.
Proof.
  unfold processWebSearch, tryCatch, bind.
  destruct (lookupSearchResults query w) as [[rs|m] w1]; [|reflexivity].
  destruct (answerFromResults query rs w1) as [[a|m] w2]; reflexivity.
Qed.

(** The web path absorbs every failure: it always returns an answer. *)
Lemma processWebSearch_returns query w :
  exists a w', processWebSearch query w = (Returned a, w').
Proof.
  rewrite processWebSearch_unfold.
  destruct (lookupSearchResults query w) as [[rs|m] w1]; [|eauto].
  destruct (answerFromResults query rs w1) as [[a|m] w2]; eauto.
Qed.

Lemma tryCatch_returns {A} (m : Async E A) (h : string -> Async E A) w a w' :
  m w = (Returned a, w') -> tryCatch m h w = (Returned a, w').
Proof. unfold tryCatch. now intros ->. Qed.

Lemma tryCatch_web query (h : string -> Async E Answer) w :
  tryCatch (processWebSearch query) h w = processWebSearch query w.
Proof.
  destruct (processWebSearch_returns query w) as (a & w' & Hr).
  rewrite Hr. now apply tryCatch_returns.
Qed.

(** The three ways through [processRAGQuery]. *)
Lemma processRAGQuery_cases query documentIds w :
  let relevant := relevantChunks query (candidates documentIds (db w)) in
  processRAGQuery query documentIds w =
    if (length relevant =? 0)%nat then processWebSearch query w
    else
      match chatCompletionsCreate (ragMessages (ragContext relevant) query) (ext w) with
      | (Returned completion, e) =>
          (Returned (mkAnswer (Js.orElse completion NO_RAG_RESPONSE) (map chunkSource relevant)),
           mkWorld (db w) e)
      | (Thrown _, e) => processWebSearch query (mkWorld (db w) e)
      end.
Proof.
  intros relevant. unfold processRAGQuery, findManyChunks.
  unfold tryCatch at 1. unfold bind at 1. unfold readDb.
  destruct (length (candidates documentIds (db w)) =? 0)%nat eqn:Hc.
  - apply Nat.eqb_eq in Hc. apply nil_length_inv in Hc.
    subst relevant. rewrite Hc. simpl.
    destruct (processWebSearch_returns query w) as (a & w' & ->). reflexivity.
  - fold relevant. destruct (length relevant =? 0)%nat.
    + destruct (processWebSearch_returns query w) as (a & w' & ->). reflexivity.
    + unfold bind, call, ret.
      destruct (chatCompletionsCreate _ (ext w)) as [[o|m] e]; reflexivity.
Qed.

Lemma processRAGQuery_returns query documentIds w :
  exists a w', processRAGQuery query documentIds w = (Returned a, w').
Proof.
  rewrite processRAGQuery_cases.
  destruct (length _ =? 0)%nat; [apply processWebSearch_returns|].
  destruct (chatCompletionsCreate _ (ext w)) as [[o|m] e]; [eauto|apply processWebSearch_returns].
Qed.

(** ** The document path's fallback *)

Lemma relevantChunks_nil_of_zero query (chunks : list DocumentChunk) :
  Forall (fun c => score (scoreChunk (queryKeywords query) c) = 0%nat) chunks ->
  relevantChunks query chunks = [].
Proof.
  intros Hz. unfold relevantChunks.
  replace (filter _ (map (scoreChunk (queryKeywords query)) chunks)) with (@nil ScoredChunk);
    [reflexivity|].
  symmetry. induction Hz as [|c r Hc _ IH]; [reflexivity|].
  simpl. rewrite filter_cons, decide_False by lia. exact IH.
Qed.

(** C5. When the document path has no candidate chunk, or every candidate
    scores zero, its result (answer and world left behind) is exactly the
    result of the web path for the same query. *)
Theorem rag_falls_back_to_web_search query documentIds w :
  candidates documentIds (db w) = [] \/
  Forall (fun c => score (scoreChunk (queryKeywords query) c) = 0%nat)
         (candidates documentIds (db w)) ->
  processRAGQuery query documentIds w = processWebSearch query w.
Proof.
  intros Hempty. rewrite processRAGQuery_cases.
  replace (relevantChunks query (candidates documentIds (db w))) with (@nil ScoredChunk);
    [reflexivity|].
  symmetry. destruct Hempty as [->|Hz]; [reflexivity|].
  now apply relevantChunks_nil_of_zero.
Qed.

(** ** The web search cache *)

Lemma updateCache_found query (f : CacheEntry -> CacheEntry) w c :
  webSearchCache (db w) !! query = Some c ->
  updateCache query f w
  = (Returned tt, mkWorld (setCache (insert query (f c)) (db w)) (ext w)).
Proof. unfold updateCache. now intros ->. Qed.

(** C6. A web lookup whose query has a cache row younger than the
    freshness window reuses the row's result list, makes no search, and
    writes the row back with its hit counter raised by exactly 1 and its
    result list and timestamp as they were; nothing else in the store
    changes. *)
Theorem cache_hit_increments_counter_only query w (c : CacheEntry) :
  webSearchCache (db w) !! query = Some c ->
  dateNow (ext w) - searchedAt c < FRESHNESS_MS ->
  let hit := mkCacheEntry (results c) (searchedAt c) (hitCount c + 1) in
  let w1 := mkWorld (setCache (insert query hit) (db w)) (ext w) in
  FRESHNESS_MS = 3600 * 1000 /\
  lookupSearchResults query w = (Returned (results c), w1) /\
  processWebSearch query w
  = tryCatch (answerFromResults query (results c))
             (fun m => ret (mkAnswer (webErrorText m) [])) w1 /\
  db (snd (processWebSearch query w)) = setCache (insert query hit) (db w).
Proof.
  intros Hc Hage hit w1.
  assert (Hl : lookupSearchResults query w = (Returned (results c), w1)).
  { unfold lookupSearchResults, findUniqueCache. run. rewrite Hc.
    apply Z.ltb_lt in Hage. rewrite Hage.
    unfold bind. rewrite (updateCache_found _ _ _ c Hc). reflexivity. }
  split; [reflexivity|]. split; [exact Hl|].
  assert (Hp : processWebSearch query w
               = tryCatch (answerFromResults query (results c))
                          (fun m => ret (mkAnswer (webErrorText m) [])) w1).
  { unfold processWebSearch, tryCatch, bind. rewrite Hl. reflexivity. }
  split; [exact Hp|].
  rewrite Hp. unfold tryCatch.
  pose proof (answerFromResults_db query (results c) w1) as Hdb.
  destruct (answerFromResults query (results c) w1) as [[a|m] w2]; exact Hdb.
Qed.

(** C7. A web lookup whose query has no cache row, or a row at least as
    old as the freshness window, asks the search function for 5 results
    on the query prefixed with the domain qualifier; with the list the
    search returns, the row is created or replaced: it holds that list,
    the time of the write as its timestamp and a hit counter of 1. *)
Theorem cache_miss_fetches_and_resets query w
    (found : option (list SearchResult)) (e' : E) :
  webSearchCache (db w) !! query = None \/
  (exists c, webSearchCache (db w) !! query = Some c /\
             FRESHNESS_MS <= dateNow (ext w) - searchedAt c) ->
  functionsInvokeWebSearch ("dairy farming " +:+ query) 5 (ext w) = (Returned found, e') ->
  let fresh := mkCacheEntry (default [] found) (dateNow e') 1 in
  let w1 := mkWorld (setCache (insert query fresh) (db w)) e' in
  lookupSearchResults query w = (Returned (default [] found), w1) /\
  processWebSearch query w
  = tryCatch (answerFromResults query (default [] found))
             (fun m => ret (mkAnswer (webErrorText m) [])) w1 /\
  db (snd (processWebSearch query w)) = setCache (insert query fresh) (db w) /\
  webSearchCache (db (snd (processWebSearch query w))) !! query = Some fresh.
Proof.
  intros Hmiss Hsearch fresh w1.
  assert (Hl : lookupSearchResults query w = (Returned (default [] found), w1)).
  { unfold lookupSearchResults, findUniqueCache, decorate, WEB_RESULTS. run.
    destruct Hmiss as [Hn|(c & Hc & Hage)].
    - rewrite Hn. unfold bind.
      rewrite (call_returned _ w _ _ Hsearch).
      unfold createCache, bind, now, writeDb, ret. reflexivity.
    - rewrite Hc. apply Z.ltb_ge in Hage. rewrite Hage. unfold bind.
      rewrite (call_returned _ w _ _ Hsearch). unfold now. simpl.
      rewrite (updateCache_found _ _ _ c) by exact Hc. reflexivity. }
  split; [exact Hl|].
  assert (Hp : processWebSearch query w
               = tryCatch (answerFromResults query (default [] found))
                          (fun m => ret (mkAnswer (webErrorText m) [])) w1).
  { unfold processWebSearch, tryCatch, bind. rewrite Hl. reflexivity. }
  split; [exact Hp|].
  assert (Hdb : db (snd (processWebSearch query w)) = setCache (insert query fresh) (db w)).
  { rewrite Hp. unfold tryCatch.
    pose proof (answerFromResults_db query (default [] found) w1) as Hdb.
    destruct (answerFromResults query (default [] found) w1) as [[a|m] w2]; exact Hdb. }
  split; [exact Hdb|].
  rewrite Hdb. simpl. apply lookup_insert_eq.
Qed.

(** When the search throws instead, nothing is stored and the web path
    answers with an apology that carries the failure's message. *)
Lemma cache_miss_search_throws query w (m : string) (e' : E) :
  webSearchCache (db w) !! query = None \/
  (exists c, webSearchCache (db w) !! query = Some c /\
             FRESHNESS_MS <= dateNow (ext w) - searchedAt c) ->
  functionsInvokeWebSearch (decorate query) WEB_RESULTS (ext w) = (Thrown m, e') ->
  processWebSearch query w = (Returned (mkAnswer (webErrorText m) []), mkWorld (db w) e').
Proof.
  intros Hmiss Hsearch. rewrite processWebSearch_unfold.
  replace (lookupSearchResults query w) with (@Thrown (list SearchResult) m, mkWorld (db w) e');
    [reflexivity|].
  unfold lookupSearchResults, findUniqueCache. run.
  destruct Hmiss as [Hn|(c & Hc & Hage)].
  - rewrite Hn. unfold bind. now rewrite (call_returned _ w _ _ Hsearch).
  - rewrite Hc. apply Z.ltb_ge in Hage. rewrite Hage. unfold bind.
    now rewrite (call_returned _ w _ _ Hsearch).
Qed.

(** ** Scoring *)

Lemma remove_dups_NoDup (l : list string) : NoDup l -> remove_dups l = l.
Proof.
  induction 1 as [|x l Hx _ IH]; simpl; [reflexivity|].
  destruct (decide_rel elem_of x l) as [Hin|_]; [contradiction|]. now rewrite IH.
Qed.

(** C3 (as amended). The score of a chunk is the number of entries of the
    query's keyword list (the lowercased query split at runs of white
    space, an entry for every repetition of a term) that occur as a
    substring of the lowercased chunk text. Every entry adds at most 1,
    however often it occurs in the text; a term the query repeats is
    counted once per repetition, so the score agrees with the count over
    distinct terms exactly when the keyword list has no repetition. *)
Theorem score_counts_keyword_entries query (c : DocumentChunk) :
  let text := Js.toLowerCase (chunkContent c) in
  let keywords := Js.splitWhitespace (Js.toLowerCase query) in
  score (scoreChunk (queryKeywords query) c)
  = length (filter (fun k => Js.includes text k = true) keywords) /\
  (forall k, Js.includes text k = true <-> exists a b, text = a +:+ k +:+ b) /\
  (score (scoreChunk (queryKeywords query) c) <= length keywords)%nat /\
  (NoDup keywords ->
   score (scoreChunk (queryKeywords query) c) = claimedScore query (chunkContent c)).
Proof.
  intros text keywords. simpl. fold text.
  change (queryKeywords query) with keywords.
  repeat split.
  - apply keywordScore_count.
  - apply includes_substring.
  - apply includes_substring.
  - apply keywordScore_le.
  - intros Hnd. unfold claimedScore. change (queryKeywords query) with keywords.
    rewrite remove_dups_NoDup by exact Hnd. apply keywordScore_count.
Qed.

(** ** Ranking *)

Lemma positive_filter_of_score (n : nat) (l : list ScoredChunk) :
  (0 < n)%nat ->
  filter (fun c => score c = n) (filter (fun c => (0 < score c)%nat) l)
  = filter (fun c => score c = n) l.
Proof.
  intros Hn. induction l as [|c r IH]; [reflexivity|].
  rewrite (filter_cons (fun c => (0 < score c)%nat)).
  destruct (decide (0 < score c)%nat) as [Hp|Hz].
  - rewrite !filter_cons, IH. reflexivity.
  - rewrite IH, filter_cons, decide_False by lia. reflexivity.
Qed.

Lemma sortByScore_stable (n : nat) (l : list ScoredChunk) :
  filter (fun c => score c = n) (sortByScore l) = filter (fun c => score c = n) l.
Proof.
  pose proof (sortDesc_stable (fun c => Z.of_nat (score c)) (Z.of_nat n) l) as Hs.
  unfold sortByScore.
  rewrite <- (list_filter_iff (fun c => Z.of_nat (score c) = Z.of_nat n) (fun c => score c = n))
    by (intros; lia).
  rewrite <- (list_filter_iff (fun c => Z.of_nat (score c) = Z.of_nat n) (fun c => score c = n) l)
    by (intros; lia).
  exact Hs.
Qed.

Lemma sortByScore_sorted (l : list ScoredChunk) :
  StronglySorted (fun a b => (score b <= score a)%nat) (sortByScore l).
Proof.
  pose proof (sortDesc_sorted (fun c => Z.of_nat (score c)) l) as Hs.
  unfold sortByScore. induction Hs as [|x r _ IH Hx]; constructor; [exact IH|].
  eapply Forall_impl; [exact Hx|]. simpl. intros b Hb. lia.
Qed.

Lemma relevantChunks_positive query (chunks : list DocumentChunk) :
  Forall (fun c => (0 < score c)%nat) (relevantChunks query chunks).
Proof.
  unfold relevantChunks. apply Forall_take.
  rewrite (sortDesc_perm _ _ : Permutation (sortByScore _) _).
  apply Forall_forall. intros c Hc. now apply list_elem_of_filter in Hc as [Hp _].
Qed.

Lemma relevantChunks_from query (chunks : list DocumentChunk) (c : ScoredChunk) :
  c ∈ relevantChunks query chunks ->
  chunk c ∈ chunks /\ c = scoreChunk (queryKeywords query) (chunk c).
Proof.
  unfold relevantChunks. intros Hc.
  apply subseteq_take in Hc. apply sortDesc_elem in Hc.
  apply list_elem_of_filter in Hc as [_ Hc].
  apply list_elem_of_fmap in Hc as (d & -> & Hd). now split.
Qed.

Lemma processWebSearch_sources query w (a : Answer) w' :
  processWebSearch query w = (Returned a, w') ->
  forall s, s ∈ sources a -> exists r, s = resultSource r.
Proof.
  rewrite processWebSearch_unfold.
  destruct (lookupSearchResults query w) as [[rs|m] w1].
  - unfold answerFromResults. destruct (length rs =? 0)%nat.
    + unfold ret. intros [= <- _] s Hs. simpl in Hs. now apply elem_of_nil in Hs.
    + unfold bind, ret. destruct (call _ w1) as [[o|m] w2]; intros [= <- _] s Hs; simpl in Hs.
      * apply list_elem_of_fmap in Hs as (r & -> & _). eauto.
      * now apply elem_of_nil in Hs.
  - intros [= <- _] s Hs. simpl in Hs. now apply elem_of_nil in Hs.
Qed.

(** C4. In the document path the chunks that score 0 are dropped; the
    rest is ordered by falling score, chunks of equal score keeping the
    order in which they were fetched; the first 5 of that order are kept.
    When the path answers from the documents its sources are these chunks'
    references, one per kept chunk and in rank order; whatever way the
    path returns, every source is the reference of a kept chunk (of
    positive score) or a web result. *)
Theorem rag_sources_ranked query documentIds w :
  let scored := map (scoreChunk (queryKeywords query)) (candidates documentIds (db w)) in
  let surviving := filter (fun c => (0 < score c)%nat) scored in
  let ranked := sortByScore surviving in
  let relevant := relevantChunks query (candidates documentIds (db w)) in
  Forall (fun c => (0 < score c)%nat) relevant /\
  Permutation ranked surviving /\
  StronglySorted (fun a b => (score b <= score a)%nat) ranked /\
  (forall n, (0 < n)%nat ->
     filter (fun c => score c = n) ranked = filter (fun c => score c = n) scored) /\
  relevant = firstn 5 ranked /\
  (length relevant <= 5)%nat /\
  (forall completion e,
     relevant <> [] ->
     chatCompletionsCreate (ragMessages (ragContext relevant) query) (ext w)
     = (Returned completion, e) ->
     processRAGQuery query documentIds w
     = (Returned (mkAnswer (Js.orElse completion NO_RAG_RESPONSE) (map chunkSource relevant)),
        mkWorld (db w) e)) /\
  (forall a w',
     processRAGQuery query documentIds w = (Returned a, w') ->
     forall s, s ∈ sources a ->
       (exists c, c ∈ relevant /\ (0 < score c)%nat /\ s = chunkSource c) \/
       (exists r, s = resultSource r)).
Proof.
  intros scored surviving ranked relevant.
  assert (Hpos : Forall (fun c => (0 < score c)%nat) relevant) by apply relevantChunks_positive.
  split; [exact Hpos|].
  split; [apply sortDesc_perm|].
  split; [apply sortByScore_sorted|].
  split. { intros n Hn. unfold ranked. rewrite sortByScore_stable.
           now apply positive_filter_of_score. }
  split; [reflexivity|].
  split. { unfold relevant, relevantChunks. rewrite length_take. unfold TOP_K. lia. }
  split.
  - intros completion e Hne Hcall. rewrite processRAGQuery_cases. fold relevant.
    destruct relevant as [|c r]; [contradiction|]. simpl. now rewrite Hcall.
  - intros a w'. rewrite processRAGQuery_cases. fold relevant.
    destruct (length relevant =? 0)%nat.
    + intros Hweb s Hs. right. eapply processWebSearch_sources; eauto.
    + destruct (chatCompletionsCreate _ (ext w)) as [[o|m] e].
      * intros [= <- _] s Hs. simpl in Hs. left.
        apply list_elem_of_fmap in Hs as (c & -> & Hc). exists c.
        split; [exact Hc|]. split; [|reflexivity].
        rewrite (Forall_forall (fun c => (0 < score c)%nat)) in Hpos. now apply Hpos.
      * intros Hweb s Hs. right. eapply processWebSearch_sources; eauto.
Qed.

(** The web path reads and writes the cache table only: on a store with
    another chunk table it answers the same and leaves the same store but
    for that table. *)
Lemma processWebSearch_chunks_frame (query : string) (chunks : list DocumentChunk) (d : Db) (e : E) :
  processWebSearch query (mkWorld (setChunks chunks d) e)
  = (fst (processWebSearch query (mkWorld d e)),
     mkWorld (setChunks chunks (db (snd (processWebSearch query (mkWorld d e)))))
             (ext (snd (processWebSearch query (mkWorld d e))))).
Proof.
  unfold processWebSearch, lookupSearchResults, answerFromResults, findUniqueCache,
    updateCache, createCache, tryCatch, bind, ret, now, readDb, writeDb, call.
  simpl.
  destruct (webSearchCache d !! query) as [c|] eqn:Hc; simpl.
  - destruct (dateNow e - searchedAt c <? FRESHNESS_MS); simpl; rewrite ?Hc; simpl.
    + destruct (length (results c) =? 0)%nat; simpl; [reflexivity|].
      destruct (chatCompletionsCreate _ e) as [[o|m] e1]; reflexivity.
    + destruct (functionsInvokeWebSearch _ _ e) as [[found|m] e1]; simpl; [|reflexivity].
      rewrite ?Hc; simpl.
      destruct (length (default [] found) =? 0)%nat; simpl; [reflexivity|].
      destruct (chatCompletionsCreate _ e1) as [[o|m] e2]; reflexivity.
  - destruct (functionsInvokeWebSearch _ _ e) as [[found|m] e1]; simpl; [|reflexivity].
    destruct (length (default [] found) =? 0)%nat; simpl; [reflexivity|].
    destruct (chatCompletionsCreate _ e1) as [[o|m] e2]; reflexivity.
Qed.

Lemma processRAGQuery_chunks_frame (query : string) (documentIds : list string)
    (chunks : list DocumentChunk) (d : Db) (e : E) :
  candidates documentIds (setChunks chunks d) = candidates documentIds d ->
  fst (processRAGQuery query documentIds (mkWorld (setChunks chunks d) e))
  = fst (processRAGQuery query documentIds (mkWorld d e)).
Proof.
  intros Hsame. rewrite !processRAGQuery_cases. simpl. rewrite Hsame.
  destruct (length _ =? 0)%nat.
  - now rewrite processWebSearch_chunks_frame.
  - destruct (chatCompletionsCreate _ e) as [[o|m] e1]; [reflexivity|].
    simpl. now rewrite processWebSearch_chunks_frame.
Qed.

(** C10. The document path fetches at most 20 chunks of the supplied
    documents, the first ones the store yields, before it scores anything.
    The chunks it keeps are all among those, and its answer is either the
    web path's or built from the kept chunks alone: their texts form the
    context sent to the completion service and their references the
    sources. A chunk beyond the first 20 takes no part, whatever its
    score would be: on any chunk table with the same first 20 chunks of
    the supplied documents the path gives the same answer. *)
Theorem rag_uses_first_twenty_only query documentIds w :
  let matching := filter (fun c => documentId c ∈ documentIds) (documentChunk (db w)) in
  let fetched := firstn 20 matching in
  let relevant := relevantChunks query fetched in
  findManyChunks documentIds w = (Returned fetched, w) /\
  (length fetched <= 20)%nat /\
  (forall c, c ∈ relevant -> chunk c ∈ fetched) /\
  ragContext relevant = Js.join SEPARATOR (map (fun c => chunkContent (chunk c)) relevant) /\
  (processRAGQuery query documentIds w = processWebSearch query w \/
   (exists completion e,
      chatCompletionsCreate (ragMessages (ragContext relevant) query) (ext w)
      = (Returned completion, e) /\
      processRAGQuery query documentIds w
      = (Returned (mkAnswer (Js.orElse completion NO_RAG_RESPONSE) (map chunkSource relevant)),
         mkWorld (db w) e)) \/
   (exists m e,
      chatCompletionsCreate (ragMessages (ragContext relevant) query) (ext w) = (Thrown m, e) /\
      processRAGQuery query documentIds w = processWebSearch query (mkWorld (db w) e))) /\
  (forall chunks',
     firstn 20 (filter (fun c => documentId c ∈ documentIds) chunks') = fetched ->
     fst (processRAGQuery query documentIds (mkWorld (setChunks chunks' (db w)) (ext w)))
     = fst (processRAGQuery query documentIds w)).
Proof.
  assert (Hframe : forall chunks',
     firstn 20 (filter (fun c => documentId c ∈ documentIds) chunks')
     = candidates documentIds (db w) ->
     fst (processRAGQuery query documentIds (mkWorld (setChunks chunks' (db w)) (ext w)))
     = fst (processRAGQuery query documentIds w)).
  { intros chunks' Hsame. destruct w as [d e]. now apply processRAGQuery_chunks_frame. }
  intros matching fetched relevant.
  split; [reflexivity|].
  split. { unfold fetched. rewrite length_take. lia. }
  split. { intros c Hc. now apply relevantChunks_from in Hc as [Hc _]. }
  split; [reflexivity|].
  split; [|exact Hframe].
  rewrite processRAGQuery_cases.
  change (candidates documentIds (db w)) with fetched. fold relevant.
  destruct (length relevant =? 0)%nat; [now left|].
  destruct (chatCompletionsCreate _ (ext w)) as [[o|m] e] eqn:Hcall; right; [left|right]; eauto.
Qed.

(** ** The classifier and the dispatch on its label *)

Lemma analyzeQueryType_unfold query documentIds csvFileIds w :
  analyzeQueryType query documentIds csvFileIds w =
  match chatCompletionsCreate (routingMessages query documentIds csvFileIds) (ext w) with
  | (Returned completion, e) =>
      (Returned (Js.orElse (option_map (fun s => Js.toLowerCase (Js.trim s)) completion) "general"),
       mkWorld (db w) e)
  | (Thrown _, e) => (Returned "general", mkWorld (db w) e)
  end.
Proof.
  unfold analyzeQueryType, tryCatch, bind, call, ret.
  destruct (chatCompletionsCreate _ (ext w)) as [[o|m] e]; reflexivity.
Qed.

Lemma fmap_NoDup_inj {A B} (f : A -> B) (l : list A) (x y : A) :
  NoDup (map f l) -> x ∈ l -> y ∈ l -> f x = f y -> x = y.
Proof.
  induction l as [|z r IH]; intros Hnd Hx Hy Hxy.
  - now apply elem_of_nil in Hx.
  - simpl in Hnd. apply NoDup_cons in Hnd as [Hz Hnd].
    apply elem_of_cons in Hx as [->|Hx], Hy as [->|Hy]; auto.
    + exfalso. apply Hz. rewrite Hxy. now apply (list_elem_of_fmap_2 f).
    + exfalso. apply Hz. rewrite <- Hxy. now apply (list_elem_of_fmap_2 f).
Qed.

Ltac known_label :=
  simpl; split; [repeat constructor|];
  split; [intros _; reflexivity|intros Hn; exfalso; apply Hn; repeat constructor].

Lemma dispatch_label (type : string) query documentIds csvFileIds w (r : QueryResult) w' :
  dispatch type query documentIds csvFileIds w = (Returned r, w') ->
  queryType r ∈ strategyLabels /\
  (type ∈ ["csv_analysis"; "rag"; "web_search"; "hybrid"] -> queryType r = type) /\
  (type ∉ ["csv_analysis"; "rag"; "web_search"; "hybrid"] -> queryType r = "general").
Proof.
  unfold dispatch, strategyLabels.
  destruct (String.eqb_spec type "csv_analysis") as [->|H1].
  { unfold bind, ret. destruct (processCSVQuery _ _ w) as [[a|m] w1]; [|discriminate].
    intros [= <- _]. known_label. }
  destruct (String.eqb_spec type "rag") as [->|H2].
  { unfold bind, ret. destruct (processRAGQuery _ _ w) as [[a|m] w1]; [|discriminate].
    intros [= <- _]. known_label. }
  destruct (String.eqb_spec type "web_search") as [->|H3].
  { unfold bind, ret. destruct (processWebSearch _ w) as [[a|m] w1]; [|discriminate].
    intros [= <- _]. known_label. }
  destruct (String.eqb_spec type "hybrid") as [->|H4].
  { unfold bind, ret. destruct (processHybridQuery _ _ w) as [[a|m] w1]; [|discriminate].
    intros [= <- _]. known_label. }
  unfold bind, ret. destruct (directChat _ w) as [[a|m] w1]; [|discriminate].
  intros [= <- _]. simpl. split; [repeat constructor|]. split; [|reflexivity].
  intros Hin. repeat (apply elem_of_cons in Hin as [->|Hin]; [congruence|]).
  now apply elem_of_nil in Hin.
Qed.

(** C1 (as amended). The classifier never throws. It answers [general]
    when the completion call throws, yields no content, or yields content
    that is empty once trimmed; otherwise it answers the content trimmed
    and lowercased, whether or not that is one of the five labels. The
    dispatch on its answer treats every label other than [csv_analysis],
    [rag], [web_search] and [hybrid] as [general], so the strategy a
    processed query reports is always one of the five. *)
Theorem classifier_absorbs_failures query documentIds csvFileIds w :
  (exists type e,
     analyzeQueryType query documentIds csvFileIds w = (Returned type, mkWorld (db w) e) /\
     snd (chatCompletionsCreate (routingMessages query documentIds csvFileIds) (ext w)) = e /\
     match fst (chatCompletionsCreate (routingMessages query documentIds csvFileIds) (ext w)) with
     | Thrown _ => type = "general"
     | Returned None => type = "general"
     | Returned (Some s) =>
         type = if decide (Js.toLowerCase (Js.trim s) = "") then "general"
                else Js.toLowerCase (Js.trim s)
     end) /\
  (forall type w0 r w1,
     dispatch type query documentIds csvFileIds w0 = (Returned r, w1) ->
     queryType r ∈ strategyLabels /\
     (type ∉ ["csv_analysis"; "rag"; "web_search"; "hybrid"] -> queryType r = "general")) /\
  (forall r w1,
     processQuery query documentIds csvFileIds w = (Returned r, w1) ->
     queryType r ∈ strategyLabels).
Proof.
  split; [|split].
  - rewrite analyzeQueryType_unfold.
    destruct (chatCompletionsCreate _ (ext w)) as [[[s|]|m] e]; simpl.
    + eexists _, e. split; [reflexivity|]. split; [reflexivity|].
      unfold Js.orElse, Js.truthy. simpl.
      destruct (Js.toLowerCase (Js.trim s)) eqn:Hs; [reflexivity|].
      now rewrite decide_False.
    + eexists _, e. repeat split.
    + eexists _, e. repeat split.
  - intros type w0 r w1 Hd. apply dispatch_label in Hd as (Hin & _ & Hgen). now split.
  - intros r w1. unfold processQuery. unfold bind at 1.
    destruct (createZAIInstance w) as [[[]|m] w0]; [|discriminate].
    unfold bind. destruct (analyzeQueryType _ _ _ w0) as [[type|m] w2]; [|discriminate].
    intros Hd. now apply dispatch_label in Hd as (Hin & _).
Qed.

(** ** The hybrid path *)

(** C2 (as amended). In the hybrid path, when the final synthesis call
    returns without content (none, or the empty text), the answer is the
    document path's answer text, unsynthesized, with the combined
    sources; when the call throws, the hybrid path returns the result of a
    further web lookup for the query. *)
Theorem hybrid_synthesis_failure query documentIds w
    (ragResult webResult : Answer) w1 w2 :
  processRAGQuery query documentIds w = (Returned ragResult, w1) ->
  processWebSearch query w1 = (Returned webResult, w2) ->
  let synthesis :=
    chatCompletionsCreate (hybridMessages (response ragResult) (response webResult) query)
                          (ext w2) in
  let w3 := mkWorld (db w2) (snd synthesis) in
  (forall completion,
     fst synthesis = Returned completion -> Js.truthy completion = None ->
     processHybridQuery query documentIds w
     = (Returned (mkAnswer (response ragResult)
                    (map (withPriority high) (sources ragResult) ++
                     map (withPriority medium) (sources webResult))), w3)) /\
  (forall message0,
     fst synthesis = Thrown message0 ->
     processHybridQuery query documentIds w = processWebSearch query w3).
Proof.
  intros Hrag Hweb synthesis w3.
  assert (Hrun : processHybridQuery query documentIds w =
    match fst synthesis with
    | Returned completion =>
        (Returned (mkAnswer (Js.orElse completion (response ragResult))
                     (map (withPriority high) (sources ragResult) ++
                      map (withPriority medium) (sources webResult))), w3)
    | Thrown _ => processWebSearch query w3
    end).
  { unfold processHybridQuery, tryCatch. unfold bind at 1. rewrite Hrag.
    unfold bind at 1. rewrite Hweb. unfold bind, call, ret.
    subst w3 synthesis. destruct (chatCompletionsCreate _ (ext w2)) as [[o|m] e]; reflexivity. }
  split.
  - intros completion Hs Hfalsy. rewrite Hrun, Hs. unfold Js.orElse. now rewrite Hfalsy.
  - intros m Hs. now rewrite Hrun, Hs.
Qed.

(** ** Selection of the data file *)

Lemma selectFarmDataFile_greatest (csvFileIds : list string) (files : list FarmDataFile)
    (f : FarmDataFile) :
  selectFarmDataFile csvFileIds files = Some f ->
  f ∈ files /\ fileId f ∈ csvFileIds /\
  forall g, g ∈ files -> fileId g ∈ csvFileIds -> uploadedAt g <= uploadedAt f.
Proof.
  unfold selectFarmDataFile, sortByUpload. intros Hsel.
  apply sortDesc_head in Hsel as [Hin Hmax].
  apply list_elem_of_filter in Hin as [Hid Hin].
  repeat split; [exact Hin|exact Hid|].
  intros g Hg Hgid. apply Hmax. now apply list_elem_of_filter.
Qed.

Lemma selectFarmDataFile_some (csvFileIds : list string) (files : list FarmDataFile)
    (g : FarmDataFile) :
  g ∈ files -> fileId g ∈ csvFileIds ->
  exists f, selectFarmDataFile csvFileIds files = Some f.
Proof.
  intros Hg Hid. unfold selectFarmDataFile, sortByUpload.
  destruct (head (sortDesc uploadedAt _)) as [f|] eqn:Hh; [eauto|].
  apply sortDesc_head_None in Hh.
  assert (Hin : g ∈ filter (fun f => fileId f ∈ csvFileIds) files)
    by now apply list_elem_of_filter.
  rewrite Hh in Hin. now apply elem_of_nil in Hin.
Qed.

(** C9. When some supplied identifier resolves to a registered file, the
    tabular path selects a file among those the identifiers resolve to
    whose upload time is the latest, and that file is the one whose path
    goes to the executor and whose name is the source of the answer. For
    identifiers [[A; B]] with B registered later than A it selects B. *)
Theorem csv_selects_most_recent query (csvFileIds : list string) w :
  (forall g, g ∈ farmDataFile (db w) -> fileId g ∈ csvFileIds ->
     exists f,
       findFirstFarmDataFile csvFileIds w = (Returned (Some f), w) /\
       f ∈ farmDataFile (db w) /\ fileId f ∈ csvFileIds /\
       (forall g', g' ∈ farmDataFile (db w) -> fileId g' ∈ csvFileIds ->
          uploadedAt g' <= uploadedAt f) /\
       (forall out e1 completion e2,
          execAsync (filePath f) query (ext w) = (Returned out, e1) ->
          chatCompletionsCreate
            (csvMessages query (Js.orElse (Some (fst out)) (snd out))) e1
          = (Returned completion, e2) ->
          processCSVQuery query csvFileIds w
          = (Returned (mkAnswer (Js.orElse completion (Js.orElse (Some (fst out)) (snd out)))
                         [mkSource (CsvAnalysisSource (fileName f)) None]),
             mkWorld (db w) e2))) /\
  (forall A B,
     NoDup (map fileId (farmDataFile (db w))) ->
     A ∈ farmDataFile (db w) -> B ∈ farmDataFile (db w) ->
     csvFileIds = [fileId A; fileId B] ->
     uploadedAt A < uploadedAt B ->
     findFirstFarmDataFile csvFileIds w = (Returned (Some B), w)).
Proof.
  split.
  - intros g Hg Hid.
    destruct (selectFarmDataFile_some csvFileIds _ g Hg Hid) as [f Hsel].
    pose proof (selectFarmDataFile_greatest _ _ _ Hsel) as (Hin & Hfid & Hmax).
    exists f. split; [|split; [exact Hin|split; [exact Hfid|split; [exact Hmax|]]]].
    + unfold findFirstFarmDataFile, readDb. now rewrite Hsel.
    + intros out e1 completion e2 Hexec Hcall.
      unfold processCSVQuery, tryCatch, findFirstFarmDataFile, readDb.
      unfold bind at 1. rewrite Hsel. unfold bind, call, ret. rewrite Hexec. simpl.
      now rewrite Hcall.
  - intros A B Hnd HA HB -> Hlt.
    destruct (selectFarmDataFile_some [fileId A; fileId B] _ B HB) as [f Hsel];
      [apply list_elem_of_further, list_elem_of_here|].
    pose proof (selectFarmDataFile_greatest _ _ _ Hsel) as (Hin & Hfid & Hmax).
    unfold findFirstFarmDataFile, readDb. rewrite Hsel.
    assert (Hinj : forall x y, x ∈ farmDataFile (db w) -> y ∈ farmDataFile (db w) ->
                               fileId x = fileId y -> x = y).
    { intros x y. now apply fmap_NoDup_inj. }
    assert (HB' : uploadedAt B <= uploadedAt f) by (apply Hmax; [exact HB|apply list_elem_of_further, list_elem_of_here]).
    assert (f = B) as ->; [|reflexivity].
    apply elem_of_cons in Hfid as [Hfa|Hfb].
    + apply Hinj in Hfa; [subst f; lia|exact Hin|exact HA].
    + apply list_elem_of_singleton in Hfb. now apply Hinj in Hfb.
Qed.

End RouteFacts.

(** ** The route on the example worlds *)

Example split_plain : Js.splitWhitespace "milk  yield cow" = ["milk"; "yield"; "cow"].
Proof. reflexivity. Qed.

Example split_edges : Js.splitWhitespace " cow " = [""; "cow"; ""].
Proof. reflexivity. Qed.

Example split_empty : Js.splitWhitespace "" = [""].
Proof. reflexivity. Qed.

Example trim_lower : Js.toLowerCase (Js.trim "  RAG  ") = "rag".
Proof. reflexivity. Qed.

Example includes_examples :
  Js.includes "the cow eats" "cow" = true /\ Js.includes "the cow" "" = true /\
  Js.includes "the cow" "cows" = false.
Proof. repeat split. Qed.

(** C1, counterexample. When the completion answers a word that is no
    label, the classifier returns that word, lowercased, and not
    [general]. *)
Lemma classifier_returns_unknown_word :
  fst (analyzeQueryType "hello" [] [] bananaWorld) = Returned "banana" /\
  "banana" ∉ strategyLabels.
Proof.
  split; [vm_compute; reflexivity|].
  unfold strategyLabels. intros Hin.
  repeat (apply elem_of_cons in Hin as [Heq|Hin]; [discriminate Heq|]).
  now apply elem_of_nil in Hin.
Qed.

Lemma classifier_absorbs_failures_witness :
  fst (processQuery "hello" [] [] bananaWorld)
  = Returned (mkQueryResult "Hello!" [] "general") /\
  "general" ∈ strategyLabels.
Proof.
  split; [vm_compute; reflexivity|].
  destruct (classifier_absorbs_failures "hello" [] [] bananaWorld) as (_ & _ & Hq).
  eapply (Hq (mkQueryResult "Hello!" [] "general")). vm_compute. reflexivity.
Defined.

(** C2, counterexample. The document path answers from the manual, the
    web search finds nothing, and the synthesis request throws: the
    hybrid path returns the web path's apology without sources, not the
    document answer. *)
Lemma hybrid_throw_returns_web_answer :
  fst (processRAGQuery "water" ["d1"] hybridWorld)
  = Returned (mkAnswer "Answer from the manual" [mkSource (DocumentSource "manual.pdf" 0) None]) /\
  completionOf (ext hybridWorld) (hybridMessages "Answer from the manual" NO_WEB_RESULTS "water")
  = Thrown "synthesis timed out" /\
  fst (processHybridQuery "water" ["d1"] hybridWorld) = Returned (mkAnswer NO_WEB_RESULTS []) /\
  NO_WEB_RESULTS <> "Answer from the manual".
Proof. repeat split; try (vm_compute; reflexivity). discriminate. Qed.

Lemma hybrid_synthesis_failure_witness :
  fst (processHybridQuery "water" ["d1"] silentHybridWorld)
  = Returned (mkAnswer "Answer from the manual"
                [mkSource (DocumentSource "manual.pdf" 0) (Some high)]) /\
  fst (processHybridQuery "water" ["d1"] hybridWorld) = Returned (mkAnswer NO_WEB_RESULTS []).
Proof.
  split.
  - pose (w1 := snd (processRAGQuery "water" ["d1"] silentHybridWorld)).
    pose (w2 := snd (processWebSearch "water" w1)).
    pose proof (hybrid_synthesis_failure "water" ["d1"] silentHybridWorld
                  (mkAnswer "Answer from the manual" [mkSource (DocumentSource "manual.pdf" 0) None])
                  (mkAnswer NO_WEB_RESULTS []) w1 w2) as Hthm.
    destruct Hthm as [Hsilent _]; [vm_compute; reflexivity|vm_compute; reflexivity|].
    rewrite (Hsilent None); [reflexivity|vm_compute; reflexivity|reflexivity].
  - pose (w1 := snd (processRAGQuery "water" ["d1"] hybridWorld)).
    pose (w2 := snd (processWebSearch "water" w1)).
    pose proof (hybrid_synthesis_failure "water" ["d1"] hybridWorld
                  (mkAnswer "Answer from the manual" [mkSource (DocumentSource "manual.pdf" 0) None])
                  (mkAnswer NO_WEB_RESULTS []) w1 w2) as Hthm.
    destruct Hthm as [_ Hthrow]; [vm_compute; reflexivity|vm_compute; reflexivity|].
    rewrite (Hthrow "synthesis timed out"); vm_compute; reflexivity.
Defined.

(** C3, counterexample. A term the query repeats is counted for each
    repetition: the chunk scores 2 where the count over distinct terms
    is 1. *)
Lemma repeated_query_term_counts_twice :
  score (scoreChunk (queryKeywords "water water") waterChunk) = 2%nat /\
  claimedScore "water water" (chunkContent waterChunk) = 1%nat /\
  score (scoreChunk (queryKeywords "water water") waterChunk)
  <> claimedScore "water water" (chunkContent waterChunk).
Proof. repeat split; try (vm_compute; reflexivity). vm_compute. discriminate. Qed.

Lemma score_counts_keyword_entries_witness :
  NoDup (Js.splitWhitespace (Js.toLowerCase "Clean WATER")) /\
  score (scoreChunk (queryKeywords "Clean WATER") waterChunk)
  = claimedScore "Clean WATER" (chunkContent waterChunk).
Proof.
  assert (Hnd : NoDup (Js.splitWhitespace (Js.toLowerCase "Clean WATER"))).
  { apply (bool_decide_unpack _). vm_compute. reflexivity. }
  split; [exact Hnd|].
  pose proof (score_counts_keyword_entries "Clean WATER" waterChunk) as Hthm.
  cbv zeta in Hthm. destruct Hthm as (_ & _ & _ & Hagree). exact (Hagree Hnd).
Defined.

Lemma rag_sources_ranked_witness :
  relevantChunks "water" (candidates ["d1"] (db hybridWorld)) <> [] /\
  processRAGQuery "water" ["d1"] hybridWorld
  = (Returned (mkAnswer "Answer from the manual" [mkSource (DocumentSource "manual.pdf" 0) None]),
     mkWorld (db hybridWorld) (tick (ext hybridWorld))).
Proof.
  assert (Hne : relevantChunks "water" (candidates ["d1"] (db hybridWorld)) <> []).
  { vm_compute. discriminate. }
  split; [exact Hne|].
  pose proof (rag_sources_ranked "water" ["d1"] hybridWorld) as Hthm.
  cbv zeta in Hthm. destruct Hthm as (_ & _ & _ & _ & _ & _ & Hdoc & _).
  rewrite (Hdoc (Some "Answer from the manual") (tick (ext hybridWorld)) Hne);
    vm_compute; reflexivity.
Defined.

Lemma rag_falls_back_to_web_search_witness :
  (candidates [] (db bananaWorld) = [] /\
   processRAGQuery "hello" [] bananaWorld = processWebSearch "hello" bananaWorld) /\
  (Forall (fun c => score (scoreChunk (queryKeywords "zebra") c) = 0%nat)
          (candidates ["d1"] (db crowdedWorld)) /\
   processRAGQuery "zebra" ["d1"] crowdedWorld = processWebSearch "zebra" crowdedWorld).
Proof.
  split.
  - split; [reflexivity|].
    apply (rag_falls_back_to_web_search "hello" [] bananaWorld). left. reflexivity.
  - assert (Hz : Forall (fun c => score (scoreChunk (queryKeywords "zebra") c) = 0%nat)
                        (candidates ["d1"] (db crowdedWorld))).
    { apply (bool_decide_unpack _). vm_compute. reflexivity. }
    split; [exact Hz|].
    apply (rag_falls_back_to_web_search "zebra" ["d1"] crowdedWorld). right. exact Hz.
Defined.

Lemma cache_hit_increments_counter_only_witness :
  webSearchCache (db (cacheWorld 2000)) !! "mastitis" = Some cachedEntry /\
  webSearchCache (db (snd (processWebSearch "mastitis" (cacheWorld 2000)))) !! "mastitis"
  = Some (mkCacheEntry [mastitisResult] 1000 5) /\
  searchLog (ext (snd (processWebSearch "mastitis" (cacheWorld 2000)))) = [].
Proof.
  assert (Hc : webSearchCache (db (cacheWorld 2000)) !! "mastitis" = Some cachedEntry).
  { vm_compute. reflexivity. }
  split; [exact Hc|].
  pose proof (cache_hit_increments_counter_only "mastitis" (cacheWorld 2000) cachedEntry Hc) as Hthm.
  cbv zeta in Hthm. destruct Hthm as (_ & _ & _ & Hdb); [vm_compute; reflexivity|].
  rewrite Hdb. split; vm_compute; reflexivity.
Defined.

Lemma cache_miss_fetches_and_resets_witness :
  webSearchCache (db (snd (processWebSearch "mastitis" (cacheWorld 3601000)))) !! "mastitis"
  = Some (mkCacheEntry [mastitisResult] 3602000 1) /\
  webSearchCache (db (snd (processWebSearch "hello" bananaWorld))) !! "hello"
  = Some (mkCacheEntry [] 1000 1).
Proof.
  split.
  - pose proof (cache_miss_fetches_and_resets "mastitis" (cacheWorld 3601000)
                  (Some [mastitisResult])
                  (logSearch "dairy farming mastitis" 5 (ext (cacheWorld 3601000)))) as Hthm.
    cbv zeta in Hthm. destruct Hthm as (_ & _ & _ & Hrow).
    + right. exists cachedEntry. split; [vm_compute; reflexivity|]. vm_compute. discriminate.
    + vm_compute. reflexivity.
    + rewrite Hrow. vm_compute. reflexivity.
  - pose proof (cache_miss_fetches_and_resets "hello" bananaWorld None
                  (logSearch "dairy farming hello" 5 (ext bananaWorld))) as Hthm.
    cbv zeta in Hthm. destruct Hthm as (_ & _ & _ & Hrow).
    + left. vm_compute. reflexivity.
    + vm_compute. reflexivity.
    + rewrite Hrow. vm_compute. reflexivity.
Defined.

(** C8, the route on the failing input. The router picks the document
    path, no document is on file, so the path falls back to the web
    lookup, which runs a search; the log row of the query still says that
    no web search was triggered. *)
Theorem rag_fallback_logged_without_web_search :
  let body := mkChatRequest "mastitis" "s1" [] [] in
  let w' := snd (POST body ragOnlyWorld) in
  fst (POST body ragOnlyWorld)
  = Returned (Ok200 (mkQueryResult "Treat early."
                       [mkSource (WebSearchSource "Mastitis control" "https://example.org/mastitis") None]
                       "rag")) /\
  searchLog (ext w') = [("dairy farming mastitis", 5)] /\
  webSearchCache (db w') !! "mastitis" = Some (mkCacheEntry [mastitisResult] 2000 1) /\
  map triggeredWebSearch (queryLog (db w')) = [false].
Proof. repeat split; vm_compute; reflexivity. Qed.

Lemma csv_selects_most_recent_witness :
  uploadedAt fileA < uploadedAt fileB /\
  findFirstFarmDataFile ["A"; "B"] farmWorld = (Returned (Some fileB), farmWorld) /\
  fst (processCSVQuery "average milk yield" ["A"; "B"] farmWorld)
  = Returned (mkAnswer "Yields are stable." [mkSource (CsvAnalysisSource "february.csv") None]).
Proof.
  split; [reflexivity|].
  destruct (csv_selects_most_recent "average milk yield" ["A"; "B"] farmWorld) as [Hany Hab].
  assert (Hsel : findFirstFarmDataFile ["A"; "B"] farmWorld = (Returned (Some fileB), farmWorld)).
  { apply (Hab fileA fileB).
    - apply (bool_decide_unpack _). vm_compute. reflexivity.
    - apply list_elem_of_further, list_elem_of_here.
    - apply list_elem_of_here.
    - reflexivity.
    - reflexivity. }
  split; [exact Hsel|].
  destruct (Hany fileB) as (f & Hf & _ & _ & _ & Hrun).
  - apply list_elem_of_here.
  - apply list_elem_of_further, list_elem_of_here.
  - rewrite Hsel in Hf. injection Hf as <-.
    rewrite (Hrun ("mean 31.2", "") (tick (ext farmWorld)) (Some "Yields are stable.")
               (tick (tick (ext farmWorld)))); vm_compute; reflexivity.
Defined.

Lemma rag_uses_first_twenty_only_witness :
  firstn 20 (filter (fun c => documentId c ∈ ["d1"]) cowChunks)
  = firstn 20 (filter (fun c => documentId c ∈ ["d1"]) (cowChunks ++ [bestChunk])) /\
  fst (processRAGQuery "cow milk yield" ["d1"]
         (mkWorld (setChunks cowChunks (db crowdedWorld)) (ext crowdedWorld)))
  = fst (processRAGQuery "cow milk yield" ["d1"] crowdedWorld).
Proof.
  assert (Hsame : firstn 20 (filter (fun c => documentId c ∈ ["d1"]) cowChunks)
                  = firstn 20 (filter (fun c => documentId c ∈ ["d1"]) (cowChunks ++ [bestChunk]))).
  { vm_compute. reflexivity. }
  split; [exact Hsame|].
  pose proof (rag_uses_first_twenty_only "cow milk yield" ["d1"] crowdedWorld) as Hthm.
  cbv zeta in Hthm. destruct Hthm as (_ & _ & _ & _ & _ & Hframe).
  apply Hframe. exact Hsame.
Defined.

(** C10, an instance. The twenty-first chunk of the document matches
    all three keywords of the query and the twenty fetched ones match one
    each; the sources are five of the fetched chunks, and the
    twenty-first is not among them. *)
Example crowded_document_ignores_best_chunk :
  score (scoreChunk (queryKeywords "cow milk yield") bestChunk) = 3%nat /\
  Forall (fun c => score (scoreChunk (queryKeywords "cow milk yield") c) = 1%nat)
         (candidates ["d1"] (db crowdedWorld)) /\
  (bestChunk ∉ candidates ["d1"] (db crowdedWorld)) /\
  fst (processRAGQuery "cow milk yield" ["d1"] crowdedWorld)
  = Returned (mkAnswer "Answer from the manual"
                (map (fun i => mkSource (DocumentSource "manual.pdf" i) None) [0; 1; 2; 3; 4])).
Proof.
  split; [vm_compute; reflexivity|].
  split; [apply (bool_decide_unpack _); vm_compute; reflexivity|].
  split; [apply (bool_decide_unpack _); vm_compute; reflexivity|].
  vm_compute. reflexivity.
Qed.

(** Leading white space in the query yields an empty keyword, which every
    text includes. *)
Example leading_space_matches_everything :
  queryKeywords " zebra" = [""; "zebra"] /\
  score (scoreChunk (queryKeywords " zebra") waterChunk) = 1%nat.
Proof. split; vm_compute; reflexivity. Qed.

(** * Further properties of the routes *)

Section RouteMore.

Context {E : Type} `{Collaborators E}.

Implicit Types (w : World E) (query : string).

(** ** Failures the paths absorb *)

Lemma tryCatch_total {A} (m : Async E A) (h : string -> Async E A) :
  (forall e w, exists a w', h e w = (Returned a, w')) ->
  forall w, exists a w', tryCatch m h w = (Returned a, w').
Proof.
  intros Hh w. unfold tryCatch. destruct (m w) as [[a|e] w1]; [eauto|apply Hh].
Qed.

(** X1. The classifier and the four resource paths never throw: each wraps
    its body in a handler that answers, whatever the completion service,
    the search function and the executor do. *)
Theorem resource_paths_never_throw query (documentIds csvFileIds : list string) w :
  (exists type w', analyzeQueryType query documentIds csvFileIds w = (Returned type, w')) /\
  (exists a w', processCSVQuery query csvFileIds w = (Returned a, w')) /\
  (exists a w', processWebSearch query w = (Returned a, w')) /\
  (exists a w', processRAGQuery query documentIds w = (Returned a, w')) /\
  (exists a w', processHybridQuery query documentIds w = (Returned a, w')).
Proof.
  assert (Hweb : forall (e : string) w0,
            exists a w', processWebSearch query w0 = (Returned a, w')).
  { intros _ w0. apply tryCatch_total. intros e w1. unfold ret. eauto. }
  repeat split.
  - apply tryCatch_total. intros e w1. unfold ret. eauto.
  - apply tryCatch_total. intros e w1. unfold ret. eauto.
  - apply (Hweb "").
  - apply tryCatch_total. exact Hweb.
  - apply tryCatch_total. exact Hweb.
Qed.

(** ** What the paths write *)

Lemma touches_refl query (d : Db) : touchesOnlyCacheRow query d d.
Proof. repeat split. Qed.

Lemma touches_trans query (d1 d2 d3 : Db) :
  touchesOnlyCacheRow query d1 d2 -> touchesOnlyCacheRow query d2 d3 ->
  touchesOnlyCacheRow query d1 d3.
Proof.
  intros (A1 & A2 & A3 & A4 & A5 & A6) (B1 & B2 & B3 & B4 & B5 & B6).
  repeat split; try congruence.
  intros q Hq. rewrite B6, A6 by exact Hq. reflexivity.
Qed.

Lemma touches_insert query (row : CacheEntry) (d : Db) :
  touchesOnlyCacheRow query d (setCache (insert query row) d).
Proof.
  repeat split. intros q Hq. simpl. apply lookup_insert_ne. congruence.
Qed.

Lemma writes_ret {A} query (a : A) : writesOnlyRow (E:=E) query (ret a).
Proof. intros w. apply touches_refl. Qed.

Lemma writes_call {A} query (f : E -> outcome A * E) : writesOnlyRow (E:=E) query (call f).
Proof. intros w. rewrite call_db. apply touches_refl. Qed.

Lemma writes_readDb {A} query (f : Db -> A) : writesOnlyRow (E:=E) query (readDb f).
Proof. intros w. apply touches_refl. Qed.

Lemma writes_now query : writesOnlyRow (E:=E) query now.
Proof. intros w. apply touches_refl. Qed.

Lemma writes_bind {A B} query (m : Async E A) (k : A -> Async E B) :
  writesOnlyRow (E:=E) query m -> (forall a, writesOnlyRow (E:=E) query (k a)) ->
  writesOnlyRow (E:=E) query (bind m k).
Proof.
  intros Hm Hk w. unfold bind. specialize (Hm w).
  destruct (m w) as [[a|e] w1]; simpl in *; [|exact Hm].
  eapply touches_trans; [exact Hm|apply Hk].
Qed.

Lemma writes_tryCatch {A} query (m : Async E A) (h : string -> Async E A) :
  writesOnlyRow (E:=E) query m -> (forall e, writesOnlyRow (E:=E) query (h e)) ->
  writesOnlyRow (E:=E) query (tryCatch m h).
Proof.
  intros Hm Hh w. unfold tryCatch. specialize (Hm w).
  destruct (m w) as [[a|e] w1]; simpl in *; [exact Hm|].
  eapply touches_trans; [exact Hm|apply Hh].
Qed.

Lemma writes_updateCache query (f : CacheEntry -> CacheEntry) :
  writesOnlyRow (E:=E) query (updateCache query f).
Proof.
  intros w. unfold updateCache.
  destruct (webSearchCache (db w) !! query) as [c|]; simpl;
    [apply touches_insert|apply touches_refl].
Qed.

Lemma writes_createCache query (searchResults : list SearchResult) :
  writesOnlyRow (E:=E) query (createCache query searchResults).
Proof. intros w. unfold createCache, bind, now, writeDb. simpl. apply touches_insert. Qed.

Lemma writes_lookupSearchResults query : writesOnlyRow (E:=E) query (lookupSearchResults query).
Proof.
  unfold lookupSearchResults.
  apply writes_bind; [apply writes_readDb|intros cached].
  apply writes_bind; [apply writes_now|intros t].
  destruct cached as [c|].
  - destruct (t - searchedAt c <? FRESHNESS_MS).
    + apply writes_bind; [apply writes_updateCache|intros _; apply writes_ret].
    + apply writes_bind; [apply writes_call|intros found].
      apply writes_bind; [apply writes_now|intros t'].
      apply writes_bind; [apply writes_updateCache|intros _; apply writes_ret].
  - apply writes_bind; [apply writes_call|intros found].
    apply writes_bind; [apply writes_createCache|intros _; apply writes_ret].
Qed.

Lemma writes_processWebSearch query : writesOnlyRow (E:=E) query (processWebSearch query).
Proof.
  unfold processWebSearch.
  apply writes_tryCatch; [|intros e; apply writes_ret].
  apply writes_bind; [apply writes_lookupSearchResults|intros rs].
  unfold answerFromResults. destruct (length rs =? 0)%nat; [apply writes_ret|].
  apply writes_bind; [apply writes_call|intros o; apply writes_ret].
Qed.

Lemma writes_processRAGQuery query (documentIds : list string) :
  writesOnlyRow (E:=E) query (processRAGQuery query documentIds).
Proof.
  unfold processRAGQuery.
  apply writes_tryCatch; [|intros e; apply writes_processWebSearch].
  apply writes_bind; [apply writes_readDb|intros chunks].
  destruct (length chunks =? 0)%nat; [apply writes_processWebSearch|].
  destruct (length (relevantChunks query chunks) =? 0)%nat; [apply writes_processWebSearch|].
  apply writes_bind; [apply writes_call|intros o; apply writes_ret].
Qed.

Lemma writes_processHybridQuery query (documentIds : list string) :
  writesOnlyRow (E:=E) query (processHybridQuery query documentIds).
Proof.
  unfold processHybridQuery.
  apply writes_tryCatch; [|intros e; apply writes_processWebSearch].
  apply writes_bind; [apply writes_processRAGQuery|intros ragResult].
  apply writes_bind; [apply writes_processWebSearch|intros webResult].
  apply writes_bind; [apply writes_call|intros o; apply writes_ret].
Qed.

Lemma processCSVQuery_db query (csvFileIds : list string) w :
  db (snd (processCSVQuery query csvFileIds w)) = db w.
Proof.
  unfold processCSVQuery, tryCatch, findFirstFarmDataFile, readDb. unfold bind at 1.
  destruct (selectFarmDataFile csvFileIds (farmDataFile (db w))) as [f|]; [|reflexivity].
  unfold bind, call, ret.
  destruct (execAsync (filePath f) query (ext w)) as [[out|m] e1]; [|reflexivity].
  simpl. destruct (chatCompletionsCreate _ e1) as [[o|m] e2]; reflexivity.
Qed.

Lemma writes_dispatch (type : string) query (documentIds csvFileIds : list string) :
  writesOnlyRow (E:=E) query (dispatch type query documentIds csvFileIds).
Proof.
  unfold dispatch.
  destruct (String.eqb type "csv_analysis").
  { apply writes_bind; [|intros a; apply writes_ret].
    intros w. rewrite processCSVQuery_db. apply touches_refl. }
  destruct (String.eqb type "rag").
  { apply writes_bind; [apply writes_processRAGQuery|intros a; apply writes_ret]. }
  destruct (String.eqb type "web_search").
  { apply writes_bind; [apply writes_processWebSearch|intros a; apply writes_ret]. }
  destruct (String.eqb type "hybrid").
  { apply writes_bind; [apply writes_processHybridQuery|intros a; apply writes_ret]. }
  apply writes_bind; [|intros a; apply writes_ret].
  unfold directChat. apply writes_bind; [apply writes_call|intros o; apply writes_ret].
Qed.

Lemma writes_processQuery query (documentIds csvFileIds : list string) :
  writesOnlyRow (E:=E) query (processQuery query documentIds csvFileIds).
Proof.
  unfold processQuery.
  apply writes_bind; [apply writes_call|intros _].
  apply writes_bind; [|intros type; apply writes_dispatch].
  unfold analyzeQueryType.
  apply writes_tryCatch; [|intros e; apply writes_ret].
  apply writes_bind; [apply writes_call|intros o; apply writes_ret].
Qed.

(** X2. Processing a query writes nothing to the store but the cache row of
    that very query: chunks, data files, messages, log and sessions are
    left as they were, and so is the cache row of every other query. This
    holds on every path and whether the path returns or throws. *)
Theorem query_processing_writes_only_its_cache_row query
    (documentIds csvFileIds : list string) w :
  touchesOnlyCacheRow query (db w) (db (snd (processWebSearch query w))) /\
  touchesOnlyCacheRow query (db w) (db (snd (processRAGQuery query documentIds w))) /\
  touchesOnlyCacheRow query (db w) (db (snd (processHybridQuery query documentIds w))) /\
  db (snd (processCSVQuery query csvFileIds w)) = db w /\
  touchesOnlyCacheRow query (db w) (db (snd (processQuery query documentIds csvFileIds w))).
Proof.
  split; [apply writes_processWebSearch|].
  split; [apply writes_processRAGQuery|].
  split; [apply writes_processHybridQuery|].
  split; [apply processCSVQuery_db|].
  apply writes_processQuery.
Qed.

(** ** Sequences of web lookups *)

Lemma lookup_on_miss query w (found : option (list SearchResult)) (e1 : E) :
  isMiss query w ->
  functionsInvokeWebSearch (decorate query) WEB_RESULTS (ext w) = (Returned found, e1) ->
  lookupSearchResults query w
  = (Returned (default [] found),
     mkWorld (setCache (insert query (mkCacheEntry (default [] found) (dateNow e1) 1)) (db w)) e1).
Proof.
  intros Hmiss Hsearch. unfold lookupSearchResults, findUniqueCache.
  unfold bind at 1. unfold readDb. unfold bind at 1. unfold now at 1.
  destruct Hmiss as [Hn|(c & Hc & Hage)].
  - rewrite Hn. unfold bind. rewrite (call_returned _ w _ _ Hsearch).
    unfold createCache, bind, now, writeDb, ret. reflexivity.
  - rewrite Hc. apply Z.ltb_ge in Hage. rewrite Hage. unfold bind.
    rewrite (call_returned _ w _ _ Hsearch). unfold now. simpl.
    rewrite (updateCache_found _ _ _ c) by exact Hc. reflexivity.
Qed.

Lemma lookup_on_hit query w (c : CacheEntry) :
  webSearchCache (db w) !! query = Some c ->
  dateNow (ext w) - searchedAt c < FRESHNESS_MS ->
  lookupSearchResults query w
  = (Returned (results c),
     mkWorld (setCache (insert query (mkCacheEntry (results c) (searchedAt c) (hitCount c + 1)))
                (db w)) (ext w)).
Proof.
  intros Hc Hage. unfold lookupSearchResults, findUniqueCache.
  unfold bind at 1. unfold readDb. unfold bind at 1. unfold now at 1.
  rewrite Hc. apply Z.ltb_lt in Hage. rewrite Hage.
  unfold bind. rewrite (updateCache_found _ _ _ c Hc). reflexivity.
Qed.

(** X3. A lookup that had to search, followed by a lookup of the same query
    while the row is younger than the window (whatever else happened
    outside in between): the second lookup makes no search, yields the
    list the first one stored, and leaves the row with that list, the
    first lookup's timestamp and a hit counter of 2. *)
Theorem web_lookup_then_reuse query w (found : option (list SearchResult)) (e1 e2 : E) :
  isMiss query w ->
  functionsInvokeWebSearch (decorate query) WEB_RESULTS (ext w) = (Returned found, e1) ->
  dateNow e2 - dateNow e1 < FRESHNESS_MS ->
  let d1 := db (snd (processWebSearch query w)) in
  lookupSearchResults query (mkWorld d1 e2)
  = (Returned (default [] found),
     mkWorld (setCache (insert query (mkCacheEntry (default [] found) (dateNow e1) 2)) d1) e2) /\
  webSearchCache (db (snd (processWebSearch query (mkWorld d1 e2)))) !! query
  = Some (mkCacheEntry (default [] found) (dateNow e1) 2).
Proof.
  intros Hmiss Hsearch Hage d1.
  assert (Hd1 : d1 = setCache (insert query (mkCacheEntry (default [] found) (dateNow e1) 1)) (db w)).
  { subst d1. rewrite processWebSearch_unfold, (lookup_on_miss _ _ _ _ Hmiss Hsearch).
    pose proof (answerFromResults_db query (default [] found)
      (mkWorld (setCache (insert query (mkCacheEntry (default [] found) (dateNow e1) 1)) (db w)) e1))
      as Hdb.
    destruct (answerFromResults _ _ _) as [[a|m] w2]; exact Hdb. }
  assert (Hrow : webSearchCache d1 !! query = Some (mkCacheEntry (default [] found) (dateNow e1) 1)).
  { rewrite Hd1. simpl. apply lookup_insert_eq. }
  assert (Hl : lookupSearchResults query (mkWorld d1 e2)
    = (Returned (default [] found),
       mkWorld (setCache (insert query (mkCacheEntry (default [] found) (dateNow e1) 2)) d1) e2)).
  { rewrite (lookup_on_hit query (mkWorld d1 e2) _ Hrow); [reflexivity|exact Hage]. }
  split; [exact Hl|].
  rewrite processWebSearch_unfold, Hl.
  pose proof (answerFromResults_db query (default [] found)
    (mkWorld (setCache (insert query (mkCacheEntry (default [] found) (dateNow e1) 2)) d1) e2))
    as Hdb.
  destruct (answerFromResults _ _ _) as [[a|m] w2]; simpl in *; rewrite Hdb; apply lookup_insert_eq.
Qed.

(** X4. A search that finds nothing (an empty list, or no list at all) is
    answered with the fixed apology and no sources, without any call to
    the completion service, and the empty list is cached like any other:
    while that row is fresh, a further lookup of the query answers the
    same apology without calling anything outside. *)
Theorem empty_search_result_is_cached query w (found : option (list SearchResult)) (e1 e2 : E) :
  isMiss query w ->
  functionsInvokeWebSearch (decorate query) WEB_RESULTS (ext w) = (Returned found, e1) ->
  default [] found = [] ->
  let d1 := setCache (insert query (mkCacheEntry [] (dateNow e1) 1)) (db w) in
  processWebSearch query w = (Returned (mkAnswer NO_WEB_RESULTS []), mkWorld d1 e1) /\
  (dateNow e2 - dateNow e1 < FRESHNESS_MS ->
   processWebSearch query (mkWorld d1 e2)
   = (Returned (mkAnswer NO_WEB_RESULTS []),
      mkWorld (setCache (insert query (mkCacheEntry [] (dateNow e1) 2)) d1) e2)).
Proof.
  intros Hmiss Hsearch Hempty d1. split.
  - rewrite processWebSearch_unfold, (lookup_on_miss _ _ _ _ Hmiss Hsearch), Hempty.
    reflexivity.
  - intros Hage. rewrite processWebSearch_unfold.
    assert (Hrow : webSearchCache (db (mkWorld d1 e2)) !! query
                   = Some (mkCacheEntry [] (dateNow e1) 1)).
    { subst d1. simpl. apply lookup_insert_eq. }
    rewrite (lookup_on_hit query (mkWorld d1 e2) _ Hrow); [reflexivity|exact Hage].
Qed.

(** X5. When the search succeeds and the completion call on its results
    throws, the web path answers with the error text and no sources, but
    the row it wrote stays: the results are cached although no answer was
    made from them. *)
Theorem completion_failure_keeps_cached_results query w
    (searchResults : list SearchResult) (e1 e2 : E) (m : string) :
  isMiss query w ->
  functionsInvokeWebSearch (decorate query) WEB_RESULTS (ext w)
  = (Returned (Some searchResults), e1) ->
  searchResults <> [] ->
  chatCompletionsCreate (webMessages (webContext searchResults) query) e1 = (Thrown m, e2) ->
  processWebSearch query w
  = (Returned (mkAnswer (webErrorText m) []),
     mkWorld (setCache (insert query (mkCacheEntry searchResults (dateNow e1) 1)) (db w)) e2).
Proof.
  intros Hmiss Hsearch Hne Hcall.
  rewrite processWebSearch_unfold, (lookup_on_miss _ _ _ _ Hmiss Hsearch). simpl.
  unfold answerFromResults. destruct searchResults as [|r rs]; [contradiction|]. simpl.
  unfold bind, call, ret. simpl. rewrite Hcall. reflexivity.
Qed.

(** ** The tabular path at its edges *)

Lemma selectFarmDataFile_none (csvFileIds : list string) (files : list FarmDataFile) :
  (forall f, f ∈ files -> fileId f ∉ csvFileIds) ->
  selectFarmDataFile csvFileIds files = None.
Proof.
  intros Hnone. unfold selectFarmDataFile, sortByUpload.
  destruct (head (sortDesc uploadedAt _)) as [f|] eqn:Hh; [|reflexivity].
  apply sortDesc_head in Hh as [Hin _].
  apply list_elem_of_filter in Hin as [Hid Hin]. now apply Hnone in Hin.
Qed.

(** X6. The tabular path off its main line. When no supplied identifier
    resolves (in particular when none is supplied) it answers the fixed
    request for a data file and calls nothing outside. When the executor
    throws, or the completion call after it throws, it answers the error
    text carrying the failure's message, without sources. When the
    completion call yields no content, the answer is the executor's raw
    output: its standard output, or its standard error when the standard
    output is empty. *)
Theorem csv_path_edge_cases query (csvFileIds : list string) w :
  ((forall f, f ∈ farmDataFile (db w) -> fileId f ∉ csvFileIds) ->
   processCSVQuery query csvFileIds w = (Returned (mkAnswer NO_FARM_DATA []), w)) /\
  (forall file,
     selectFarmDataFile csvFileIds (farmDataFile (db w)) = Some file ->
     (forall m e1,
        execAsync (filePath file) query (ext w) = (Thrown m, e1) ->
        processCSVQuery query csvFileIds w
        = (Returned (mkAnswer (csvErrorText m) []), mkWorld (db w) e1)) /\
     (forall out e1,
        execAsync (filePath file) query (ext w) = (Returned out, e1) ->
        let analysisResult := if decide (fst out = "") then snd out else fst out in
        (forall m e2,
           chatCompletionsCreate (csvMessages query analysisResult) e1 = (Thrown m, e2) ->
           processCSVQuery query csvFileIds w
           = (Returned (mkAnswer (csvErrorText m) []), mkWorld (db w) e2)) /\
        (forall completion e2,
           chatCompletionsCreate (csvMessages query analysisResult) e1
           = (Returned completion, e2) ->
           Js.truthy completion = None ->
           processCSVQuery query csvFileIds w
           = (Returned (mkAnswer analysisResult
                          [mkSource (CsvAnalysisSource (fileName file)) None]),
              mkWorld (db w) e2)))).
Proof.
  split.
  - intros Hnone. unfold processCSVQuery, tryCatch, findFirstFarmDataFile, readDb.
    unfold bind at 1. now rewrite selectFarmDataFile_none.
  - intros file Hsel.
    assert (Hrun : processCSVQuery query csvFileIds w =
      match execAsync (filePath file) query (ext w) with
      | (Returned out, e1) =>
          match chatCompletionsCreate
                  (csvMessages query (Js.orElse (Some (fst out)) (snd out))) e1 with
          | (Returned completion, e2) =>
              (Returned (mkAnswer (Js.orElse completion (Js.orElse (Some (fst out)) (snd out)))
                           [mkSource (CsvAnalysisSource (fileName file)) None]),
               mkWorld (db w) e2)
          | (Thrown m, e2) => (Returned (mkAnswer (csvErrorText m) []), mkWorld (db w) e2)
          end
      | (Thrown m, e1) => (Returned (mkAnswer (csvErrorText m) []), mkWorld (db w) e1)
      end).
    { unfold processCSVQuery, tryCatch, findFirstFarmDataFile, readDb.
      unfold bind at 1. rewrite Hsel. unfold bind, call, ret.
      destruct (execAsync (filePath file) query (ext w)) as [[out|m] e1]; [|reflexivity].
      simpl. destruct (chatCompletionsCreate _ e1) as [[o|m] e2]; reflexivity. }
    split.
    + intros m e1 Hexec. now rewrite Hrun, Hexec.
    + intros out e1 Hexec analysisResult.
      assert (Ha : Js.orElse (Some (fst out)) (snd out) = analysisResult).
      { subst analysisResult. unfold Js.orElse, Js.truthy.
        destruct (fst out) eqn:Hout; [now rewrite decide_True|now rewrite decide_False]. }
      rewrite Hrun, Hexec, Ha. split.
      * intros m e2 Hcall. now rewrite Hcall.
      * intros completion e2 Hcall Hfalsy. rewrite Hcall. unfold Js.orElse at 1.
        now rewrite Hfalsy.
Qed.

(** ** The hybrid path *)

(** X7. When the hybrid path gets its synthesis, its sources are the
    document path's sources followed by the web path's, each unchanged
    but for the priority it now carries: [high] for the former, [medium]
    for the latter. So every source is tagged, a [high] one is present
    whenever the document path had a source and a [medium] one whenever
    the web path had one. *)
Theorem hybrid_sources_carry_priority query (documentIds : list string) w
    (ragResult webResult : Answer) w1 w2 (completion : option string) (e3 : E) :
  processRAGQuery query documentIds w = (Returned ragResult, w1) ->
  processWebSearch query w1 = (Returned webResult, w2) ->
  chatCompletionsCreate (hybridMessages (response ragResult) (response webResult) query) (ext w2)
  = (Returned completion, e3) ->
  exists a,
    processHybridQuery query documentIds w = (Returned a, mkWorld (db w2) e3) /\
    map origin (sources a) = map origin (sources ragResult) ++ map origin (sources webResult) /\
    map priority (sources a)
    = map (fun _ => Some high) (sources ragResult) ++ map (fun _ => Some medium) (sources webResult) /\
    (sources ragResult <> [] -> exists s, s ∈ sources a /\ priority s = Some high) /\
    (sources webResult <> [] -> exists s, s ∈ sources a /\ priority s = Some medium).
Proof.
  intros Hrag Hweb Hcall. eexists. split.
  - unfold processHybridQuery, tryCatch. unfold bind at 1. rewrite Hrag.
    unfold bind at 1. rewrite Hweb. unfold bind, call, ret. rewrite Hcall. reflexivity.
  - simpl. rewrite !map_app, !map_map. simpl. repeat split.
    + intros Hne. destruct (sources ragResult) as [|s r]; [contradiction|].
      exists (withPriority high s). split; [simpl; left|reflexivity].
    + intros Hne. destruct (sources webResult) as [|s r]; [contradiction|].
      exists (withPriority medium s). split; [|reflexivity].
      apply elem_of_app. right. simpl. left.
Qed.

(** X8. The hybrid path when the document path has nothing to offer (no
    candidate chunk, or none that scores) and the cache has no fresh row:
    the document path's fallback searches the web and stores the results;
    the web path proper then finds that row fresh and reuses it. One
    search is made, the row ends with a hit counter of 2, and every web
    result is cited twice, once with priority [high] and once with
    [medium]. *)
Theorem hybrid_fallback_cites_web_results_twice query (documentIds : list string) w
    (searchResults : list SearchResult) (o1 o2 o3 : option string) (e1 e2 e3 e4 : E) :
  candidates documentIds (db w) = [] \/
  Forall (fun c => score (scoreChunk (queryKeywords query) c) = 0%nat)
         (candidates documentIds (db w)) ->
  isMiss query w ->
  functionsInvokeWebSearch (decorate query) WEB_RESULTS (ext w)
  = (Returned (Some searchResults), e1) ->
  searchResults <> [] ->
  chatCompletionsCreate (webMessages (webContext searchResults) query) e1 = (Returned o1, e2) ->
  dateNow e2 - dateNow e1 < FRESHNESS_MS ->
  chatCompletionsCreate (webMessages (webContext searchResults) query) e2 = (Returned o2, e3) ->
  chatCompletionsCreate
    (hybridMessages (Js.orElse o1 NO_WEB_RESPONSE) (Js.orElse o2 NO_WEB_RESPONSE) query) e3
  = (Returned o3, e4) ->
  processHybridQuery query documentIds w
  = (Returned
       (mkAnswer (Js.orElse o3 (Js.orElse o1 NO_WEB_RESPONSE))
          (map (fun r => mkSource (WebSearchSource (name r) (url r)) (Some high)) searchResults ++
           map (fun r => mkSource (WebSearchSource (name r) (url r)) (Some medium)) searchResults)),
     mkWorld
       (setCache (insert query (mkCacheEntry searchResults (dateNow e1) 2))
          (setCache (insert query (mkCacheEntry searchResults (dateNow e1) 1)) (db w)))
       e4).
Proof.
  intros Hnothing Hmiss Hsearch Hne Hc1 Hage Hc2 Hc3.
  assert (Hlen : (length searchResults =? 0)%nat = false).
  { destruct searchResults; [contradiction|reflexivity]. }
  set (d1 := setCache (insert query (mkCacheEntry searchResults (dateNow e1) 1)) (db w)).
  set (d2 := setCache (insert query (mkCacheEntry searchResults (dateNow e1) 2)) d1).
  assert (Hfirst : processRAGQuery query documentIds w
    = (Returned (mkAnswer (Js.orElse o1 NO_WEB_RESPONSE) (map resultSource searchResults)),
       mkWorld d1 e2)).
  { rewrite processRAGQuery_cases.
    replace (relevantChunks query (candidates documentIds (db w))) with (@nil ScoredChunk).
    2:{ symmetry. destruct Hnothing as [->|Hz]; [reflexivity|].
        now apply relevantChunks_nil_of_zero. }
    simpl. rewrite processWebSearch_unfold, (lookup_on_miss _ _ _ _ Hmiss Hsearch). simpl.
    unfold answerFromResults. rewrite Hlen. unfold bind, call, ret. simpl.
    rewrite Hc1. reflexivity. }
  assert (Hsecond : processWebSearch query (mkWorld d1 e2)
    = (Returned (mkAnswer (Js.orElse o2 NO_WEB_RESPONSE) (map resultSource searchResults)),
       mkWorld d2 e3)).
  { rewrite processWebSearch_unfold.
    assert (Hrow : webSearchCache (db (mkWorld d1 e2)) !! query
                   = Some (mkCacheEntry searchResults (dateNow e1) 1)).
    { subst d1. simpl. apply lookup_insert_eq. }
    rewrite (lookup_on_hit query (mkWorld d1 e2) _ Hrow) by exact Hage. simpl.
    unfold answerFromResults. rewrite Hlen. unfold bind, call, ret. simpl.
    rewrite Hc2. reflexivity. }
  unfold processHybridQuery, tryCatch. unfold bind at 1. rewrite Hfirst.
  unfold bind at 1. rewrite Hsecond. unfold bind, call, ret. simpl. rewrite Hc3.
  rewrite !map_map. reflexivity.
Qed.

(** ** Queries with white space at their ends *)

Lemma isSpace_lowerChar (c : ascii) : Js.isSpace (Js.lowerChar c) = Js.isSpace c.
Proof. destruct c as [[] [] [] [] [] [] [] []]; reflexivity. Qed.

Lemma toLowerCase_app (r s : string) :
  Js.toLowerCase (r +:+ s) = Js.toLowerCase r +:+ Js.toLowerCase s.
Proof.
  induction r as [|c r IH]; [reflexivity|].
  change (String c r +:+ s) with (String c (r +:+ s)).
  cbn [Js.toLowerCase]. rewrite IH. reflexivity.
Qed.

Lemma includes_empty (s : string) : Js.includes s "" = true.
Proof. destruct s; reflexivity. Qed.

Lemma splitFrom_trailing_space (r : string) (c : ascii) (cur : list ascii) (inRun : bool) :
  Js.isSpace c = true -> (inRun = true -> cur = []) ->
  "" ∈ Js.splitFrom cur inRun (r +:+ String c "").
Proof.
  intros Hc. revert cur inRun. induction r as [|d r IH]; intros cur inRun Hinv.
  - change ("" +:+ String c "") with (String c ""). cbn. rewrite Hc. destruct inRun.
    + rewrite Hinv by reflexivity. left.
    + right. left.
  - change (String d r +:+ String c "") with (String d (r +:+ String c "")).
    cbn [Js.splitFrom]. destruct (Js.isSpace d).
    + destruct inRun; [apply IH; exact Hinv|right; apply IH; reflexivity].
    + apply IH. discriminate.
Qed.

Lemma empty_keyword_of_outer_space (query : string) :
  (exists c r, query = String c r /\ Js.isSpace c = true) \/
  (exists r c, query = r +:+ String c "" /\ Js.isSpace c = true) ->
  "" ∈ queryKeywords query.
Proof.
  unfold queryKeywords, Js.splitWhitespace. intros [(c & r & -> & Hc)|(r & c & -> & Hc)].
  - cbn. rewrite isSpace_lowerChar, Hc. left.
  - rewrite toLowerCase_app. cbn [Js.toLowerCase].
    apply splitFrom_trailing_space; [|discriminate].
    now rewrite isSpace_lowerChar.
Qed.

(** X9. A query that begins or ends with white space has the empty string
    among its keywords, and every text includes the empty string. So
    every chunk scores at least 1, none is discarded, and the document
    path answers from the first five of the ranking whenever it has any
    candidate: it cannot fall back for lack of a match. *)
Theorem outer_white_space_matches_every_chunk (query : string) :
  (exists c r, query = String c r /\ Js.isSpace c = true) \/
  (exists r c, query = r +:+ String c "" /\ Js.isSpace c = true) ->
  (forall c, (0 < score (scoreChunk (queryKeywords query) c))%nat) /\
  (forall chunks,
     relevantChunks query chunks
     = firstn 5 (sortByScore (map (scoreChunk (queryKeywords query)) chunks))) /\
  (forall chunks, chunks <> [] -> relevantChunks query chunks <> []).
Proof.
  intros Houter. apply empty_keyword_of_outer_space in Houter.
  assert (Hpos : forall c, (0 < score (scoreChunk (queryKeywords query) c))%nat).
  { intros c. simpl. rewrite keywordScore_count.
    assert (Hin : "" ∈ filter (fun k => Js.includes (Js.toLowerCase (chunkContent c)) k = true)
                              (queryKeywords query)).
    { apply list_elem_of_filter. split; [apply includes_empty|exact Houter]. }
    destruct (filter _ (queryKeywords query)); [now apply elem_of_nil in Hin|simpl; lia]. }
  assert (Hall : forall chunks,
            filter (fun c => (0 < score c)%nat) (map (scoreChunk (queryKeywords query)) chunks)
            = map (scoreChunk (queryKeywords query)) chunks).
  { induction chunks as [|c r IH]; [reflexivity|].
    simpl map. rewrite filter_cons, decide_True by apply Hpos. now rewrite IH. }
  split; [exact Hpos|]. split.
  - intros chunks. unfold relevantChunks. now rewrite Hall.
  - intros chunks Hne. unfold relevantChunks. rewrite Hall.
    destruct chunks as [|c r]; [contradiction|].
    intros Hnil. apply (f_equal length) in Hnil.
    rewrite length_take in Hnil. unfold sortByScore in Hnil.
    rewrite sortDesc_length in Hnil. simpl in Hnil. unfold TOP_K in Hnil. lia.
Qed.

(** ** Where the document path's sources come from *)

(** X10. Every source the document path returns is a web result or the
    reference of a chunk on file that belongs to one of the supplied
    documents: a document that was not supplied is never cited. *)
Theorem rag_cites_supplied_documents_only query (documentIds : list string) w
    (a : Answer) w' :
  processRAGQuery query documentIds w = (Returned a, w') ->
  forall s, s ∈ sources a ->
    (exists r, s = resultSource r) \/
    (exists row, row ∈ documentChunk (db w) /\ documentId row ∈ documentIds /\
                 s = mkSource (DocumentSource (documentFileName row) (chunkIndex row)) None).
Proof.
  rewrite processRAGQuery_cases.
  destruct (length _ =? 0)%nat.
  - intros Hweb s Hs. left. eapply processWebSearch_sources; eauto.
  - destruct (chatCompletionsCreate _ (ext w)) as [[o|m] e].
    + intros [= <- _] s Hs. simpl in Hs. right.
      apply list_elem_of_fmap in Hs as (c & -> & Hc).
      apply relevantChunks_from in Hc as [Hc _].
      unfold candidates in Hc. apply subseteq_take in Hc.
      apply list_elem_of_filter in Hc as [Hid Hrow].
      exists (chunk c). repeat split; assumption.
    + intros Hweb s Hs. left. eapply processWebSearch_sources; eauto.
Qed.

(** ** The chat endpoint *)

Lemma string_length_app (a b : string) :
  String.length (a +:+ b) = (String.length a + String.length b)%nat.
Proof.
  induction a as [|c a IH]; [reflexivity|].
  change (String c a +:+ b) with (String c (a +:+ b)). simpl. now rewrite IH.
Qed.

Lemma string_app_empty_r (a : string) : a +:+ "" = a.
Proof.
  induction a as [|c a IH]; [reflexivity|].
  change (String c a +:+ "") with (String c (a +:+ "")). now rewrite IH.
Qed.

Lemma sliceTo_all (n : nat) (s : string) :
  (String.length s <= n)%nat -> Js.sliceTo n s = s.
Proof.
  revert s. induction n as [|n IH]; intros [|c s] Hlen; simpl in *; try reflexivity; try lia.
  rewrite IH by lia. reflexivity.
Qed.

Lemma sliceTo_length (n : nat) (s : string) :
  String.length (Js.sliceTo n s) = Nat.min n (String.length s).
Proof.
  revert s. induction n as [|n IH]; intros [|c s]; simpl; try reflexivity.
  now rewrite IH.
Qed.

Lemma sliceTo_prefix (n : nat) (s : string) : exists rest, s = Js.sliceTo n s +:+ rest.
Proof.
  revert s. induction n as [|n IH]; intros [|c s]; simpl.
  - now exists "".
  - now exists (String c s).
  - now exists "".
  - destruct (IH s) as [rest Hrest]. exists rest.
    change (String c (Js.sliceTo n s) +:+ rest) with (String c (Js.sliceTo n s +:+ rest)).
    now rewrite <- Hrest.
Qed.

(** X11. The title a session gets from a message: the message itself when it
    has at most 50 characters, otherwise its first 50 characters followed
    by three dots. It is never longer than 53 characters. *)
Theorem session_title_is_bounded (text : string) :
  ((String.length text <= 50)%nat -> sessionTitleOf text = text) /\
  ((50 < String.length text)%nat ->
   sessionTitleOf text = Js.sliceTo 50 text +:+ "..." /\
   String.length (sessionTitleOf text) = 53%nat /\
   exists rest, text = Js.sliceTo 50 text +:+ rest) /\
  (String.length (sessionTitleOf text) <= 53)%nat.
Proof.
  unfold sessionTitleOf. split; [|split].
  - intros Hlen. apply Nat.ltb_ge in Hlen. rewrite Hlen, string_app_empty_r.
    apply sliceTo_all. now apply Nat.ltb_ge.
  - intros Hlen. pose proof Hlen as Hlt. apply Nat.ltb_lt in Hlt. rewrite Hlt.
    split; [reflexivity|]. split; [|apply sliceTo_prefix].
    rewrite string_length_app, sliceTo_length, Nat.min_l by lia. reflexivity.
  - rewrite string_length_app, sliceTo_length.
    pose proof (Nat.le_min_l 50 (String.length text)) as Hmin.
    destruct (50 <? String.length text)%nat;
      [change (String.length "...") with 3%nat|change (String.length "") with 0%nat]; lia.
Qed.

(** [POST] on a body with both fields filled, step by step. *)
Lemma POST_unfold (body : ChatRequest) w :
  message body <> "" -> sessionId body <> "" ->
  let userMessage := mkChatMessage (sessionId body) user (message body) [] None None in
  let d0 := mkDb (documentChunk (db w)) (farmDataFile (db w)) (webSearchCache (db w))
                 (chatMessage (db w) ++ [userMessage]) (queryLog (db w)) (chatSession (db w)) in
  POST body w =
  match processQuery (message body) (documents body) (csvFiles body) (mkWorld d0 (ext w)) with
  | (Thrown m, w1) => (Returned (ServerError500 m), w1)
  | (Returned result, w1) =>
      let reply := mkChatMessage (sessionId body) assistant (qrResponse result)
                     (qrSources result) (Some (queryType result))
                     (Some (dateNow (ext w1) - dateNow (ext w))) in
      let d2 := mkDb (documentChunk (db w1)) (farmDataFile (db w1)) (webSearchCache (db w1))
                     (chatMessage (db w1) ++ [reply]) (queryLog (db w1) ++ [logRow body result])
                     (chatSession (db w1)) in
      match chatSession (db w1) !! sessionId body with
      | Some _ =>
          (Returned (Ok200 result),
           mkWorld (mkDb (documentChunk d2) (farmDataFile d2) (webSearchCache d2)
                         (chatMessage d2) (queryLog d2)
                         (insert (sessionId body)
                            (mkChatSession (sessionTitleOf (message body)) (dateNow (ext w1)))
                            (chatSession d2)))
                   (ext w1))
      | None => (Returned (ServerError500 "Record to update not found."), mkWorld d2 (ext w1))
      end
  end.
Proof.
  intros Hm Hs userMessage d0. unfold POST. unfold bind at 1. unfold now at 1.
  apply String.eqb_neq in Hm, Hs. rewrite Hm, Hs. simpl orb. cbv iota.
  unfold tryCatch. unfold bind at 1. unfold createChatMessage at 1, writeDb at 1.
  fold userMessage. fold d0. unfold bind at 1.
  destruct (processQuery _ _ _ (mkWorld d0 (ext w))) as [[result|m] w1]; [|reflexivity].
  unfold bind, now, createChatMessage, createQueryLog, updateChatSession, writeDb, ret. simpl.
  destruct (chatSession (db w1) !! sessionId body); reflexivity.
Qed.

(** X12. The chat endpoint always responds, whatever happens while the query
    is processed. It responds 400 exactly when the message or the session
    identifier is empty, and then it has stored nothing and called
    nothing outside. *)
Theorem chat_post_always_responds (body : ChatRequest) w :
  exists r w',
    POST body w = (Returned r, w') /\
    (r = BadRequest400 <-> message body = "" \/ sessionId body = "") /\
    (r = BadRequest400 -> w' = w).
Proof.
  destruct (String.eqb_spec (message body) "") as [Hm|Hm].
  { exists BadRequest400, w. split; [|split; [split; auto|reflexivity]].
    unfold POST, bind, now, tryCatch, ret. rewrite Hm. reflexivity. }
  destruct (String.eqb_spec (sessionId body) "") as [Hs|Hs].
  { exists BadRequest400, w. split; [|split; [split; auto|reflexivity]].
    unfold POST, bind, now, tryCatch, ret. rewrite Hs.
    destruct (String.eqb (message body) ""); reflexivity. }
  pose proof (POST_unfold body w Hm Hs) as Hpost. cbv zeta in Hpost. rewrite Hpost.
  destruct (processQuery _ _ _ _) as [[result|m] w1].
  - destruct (chatSession (db w1) !! sessionId body); eexists _, _;
      (split; [reflexivity|split; [split; [discriminate|intros [?|?]; contradiction]|discriminate]]).
  - eexists _, _.
    split; [reflexivity|split; [split; [discriminate|intros [?|?]; contradiction]|discriminate]].
Qed.

Lemma chat_post_shape (body : ChatRequest) w :
  (exists result w', POST body w = (Returned (Ok200 result), w')) ->
  message body <> "" /\ sessionId body <> "".
Proof.
  intros (result & w' & Hpost).
  destruct (String.eqb_spec (message body) "") as [Hm|Hm].
  { unfold POST, bind, now, tryCatch, ret in Hpost. rewrite Hm in Hpost. discriminate. }
  destruct (String.eqb_spec (sessionId body) "") as [Hs|Hs].
  { unfold POST, bind, now, tryCatch, ret in Hpost. rewrite Hs in Hpost.
    destruct (String.eqb (message body) ""); discriminate. }
  now split.
Qed.

Lemma processQuery_label query (documentIds csvFileIds : list string) w :
  forall r w1, processQuery query documentIds csvFileIds w = (Returned r, w1) ->
               queryType r ∈ strategyLabels.
Proof.
  intros r w1. unfold processQuery. unfold bind at 1.
  destruct (createZAIInstance w) as [[[]|m] w0]; [|discriminate].
  unfold bind. destruct (analyzeQueryType _ _ _ w0) as [[type|m] w2]; [|discriminate].
  intros Hd. now apply dispatch_label in Hd as (Hin & _).
Qed.

(** X13. A chat request answered with 200 has left exactly this in the store:
    the user's message and the assistant's reply (with the result's text,
    sources and strategy) appended in that order, one log row appended,
    and the session, which was on file, retitled from the message. Chunks
    and data files are untouched, as is the cache row of every other
    query, and the strategy reported is one of the five labels. *)
Theorem chat_post_persists_exchange (body : ChatRequest) w (result : QueryResult) w' :
  POST body w = (Returned (Ok200 result), w') ->
  exists elapsed t,
    chatMessage (db w')
    = chatMessage (db w) ++
      [mkChatMessage (sessionId body) user (message body) [] None None;
       mkChatMessage (sessionId body) assistant (qrResponse result) (qrSources result)
         (Some (queryType result)) (Some elapsed)] /\
    queryLog (db w') = queryLog (db w) ++ [logRow body result] /\
    is_Some (chatSession (db w) !! sessionId body) /\
    chatSession (db w')
    = <[sessionId body := mkChatSession (sessionTitleOf (message body)) t]> (chatSession (db w)) /\
    documentChunk (db w') = documentChunk (db w) /\
    farmDataFile (db w') = farmDataFile (db w) /\
    (forall q, q <> message body -> webSearchCache (db w') !! q = webSearchCache (db w) !! q) /\
    queryType result ∈ strategyLabels.
Proof.
  intros Hpost.
  destruct (chat_post_shape body w) as (Hm & Hs); [eauto|].
  pose proof (POST_unfold body w Hm Hs) as Hun. cbv zeta in Hun. rewrite Hun in Hpost. clear Hun.
  set (d0 := mkDb _ _ _ _ _ _) in Hpost.
  pose proof (writes_processQuery (message body) (documents body) (csvFiles body)
                (mkWorld d0 (ext w))) as Hfr.
  pose proof (processQuery_label (message body) (documents body) (csvFiles body)
                (mkWorld d0 (ext w))) as Hlab.
  destruct (processQuery _ _ _ (mkWorld d0 (ext w))) as [[r|m] w1]; [|discriminate].
  simpl in Hfr. destruct Hfr as (F1 & F2 & F3 & F4 & F5 & F6).
  destruct (chatSession (db w1) !! sessionId body) as [s|] eqn:Hsess; [|discriminate].
  injection Hpost as <- <-. simpl.
  exists (dateNow (ext w1) - dateNow (ext w)), (dateNow (ext w1)).
  rewrite F1, F2, F3, F4, F5. subst d0. simpl.
  rewrite <- app_assoc. simpl.
  repeat split; try reflexivity.
  - rewrite F5 in Hsess. simpl in Hsess. eauto.
  - exact F6.
  - now apply (Hlab r w1).
Qed.

(** X14. The general chat has no handler of its own. When the classifier's
    word is none of the four resource labels and the completion call of
    the general chat throws, the failure reaches the endpoint: the
    response is 500 with the failure's message, and of the exchange only
    the user's message has been stored (no reply, no log row, no change
    to the session). *)
Theorem general_chat_failure_reaches_caller (body : ChatRequest) w
    (type m : string) (e0 e2 : E) w1 :
  message body <> "" -> sessionId body <> "" ->
  is_Some (chatSession (db w) !! sessionId body) ->
  let userMessage := mkChatMessage (sessionId body) user (message body) [] None None in
  let d0 := mkDb (documentChunk (db w)) (farmDataFile (db w)) (webSearchCache (db w))
                 (chatMessage (db w) ++ [userMessage]) (queryLog (db w)) (chatSession (db w)) in
  zaiCreate (ext w) = (Returned tt, e0) ->
  analyzeQueryType (message body) (documents body) (csvFiles body) (mkWorld d0 e0)
  = (Returned type, w1) ->
  type ∉ ["csv_analysis"; "rag"; "web_search"; "hybrid"] ->
  chatCompletionsCreate (chatMessages (message body)) (ext w1) = (Thrown m, e2) ->
  processQuery (message body) (documents body) (csvFiles body) (mkWorld d0 (ext w))
  = (Thrown m, mkWorld d0 e2) /\
  POST body w = (Returned (ServerError500 m), mkWorld d0 e2).
Proof.
  intros Hm Hs _ userMessage d0 Hzai Htype Hnot Hchat.
  assert (Hdb : db w1 = d0).
  { pose proof (analyzeQueryType_unfold (message body) (documents body) (csvFiles body)
                  (mkWorld d0 e0)) as Hun.
    rewrite Htype in Hun. simpl in Hun.
    destruct (chatCompletionsCreate _ e0) as [[o|x] e]; injection Hun as _ ->; reflexivity. }
  assert (Hq : processQuery (message body) (documents body) (csvFiles body) (mkWorld d0 (ext w))
               = (Thrown m, mkWorld d0 e2)).
  { unfold processQuery. unfold bind at 1. unfold createZAIInstance, call. simpl.
    rewrite Hzai. unfold bind at 1. rewrite Htype. unfold dispatch.
    assert (H1 : String.eqb type "csv_analysis" = false).
    { apply String.eqb_neq. intros ->. apply Hnot. repeat constructor. }
    assert (H2 : String.eqb type "rag" = false).
    { apply String.eqb_neq. intros ->. apply Hnot. repeat constructor. }
    assert (H3 : String.eqb type "web_search" = false).
    { apply String.eqb_neq. intros ->. apply Hnot. repeat constructor. }
    assert (H4 : String.eqb type "hybrid" = false).
    { apply String.eqb_neq. intros ->. apply Hnot. repeat constructor. }
    rewrite H1, H2, H3, H4. unfold directChat, bind, call. rewrite Hchat, Hdb. reflexivity. }
  split; [exact Hq|].
  pose proof (POST_unfold body w Hm Hs) as Hun. cbv zeta in Hun. rewrite Hun.
  fold userMessage. fold d0. rewrite Hq. reflexivity.
Qed.

End RouteMore.

(** * The document upload route *)

(** ** Slices *)

Lemma substring_length (n m : nat) (s : string) :
  String.length (String.substring n m s) = Nat.min m (String.length s - n).
Proof.
  revert n m. induction s as [|c s IH]; intros [|n] [|m]; simpl; try reflexivity.
  - now rewrite IH, Nat.sub_0_r.
  - apply IH.
  - apply IH.
Qed.

Lemma resolve_range (s : string) (i : Z) :
  0 <= JsIndex.resolve s i <= JsIndex.len s.
Proof.
  unfold JsIndex.resolve, JsIndex.len.
  destruct (Z.ltb_spec i 0); lia.
Qed.

Lemma slice_len (s : string) (b e : Z) :
  JsIndex.len (JsIndex.slice s b e)
  = Z.max 0 (JsIndex.resolve s e - JsIndex.resolve s b).
Proof.
  pose proof (resolve_range s b) as Hb. pose proof (resolve_range s e) as He.
  unfold JsIndex.slice. unfold JsIndex.len at 1. rewrite substring_length.
  unfold JsIndex.len in *. lia.
Qed.

Lemma slice_len_le (s : string) (b e : Z) :
  JsIndex.len (JsIndex.slice s b e) <= JsIndex.len s.
Proof.
  rewrite slice_len. pose proof (resolve_range s b). pose proof (resolve_range s e). lia.
Qed.

Lemma chunkAt_len (text : string) (chunkSize start : Z) :
  JsIndex.len (chunkAt text chunkSize start)
  <= JsIndex.len (JsIndex.slice text start (Z.min (start + chunkSize) (JsIndex.len text))).
Proof.
  unfold chunkAt. destruct (_ <? JsIndex.len text); [|lia].
  destruct (chunkSize <? _); [apply slice_len_le|lia].
Qed.

(** ** The loop of [createTextChunks] *)

Lemma chunkStep_below (text : string) (chunkSize overlap : Z) (st : Z * list string) :
  0 < overlap -> fst st < JsIndex.len text ->
  fst (chunkStep text chunkSize overlap st) < JsIndex.len text.
Proof.
  intros Hov Hst. unfold chunkStep. simpl.
  pose proof (chunkAt_len text chunkSize (fst st)) as Hle.
  rewrite slice_len in Hle.
  pose proof (resolve_range text (fst st)) as Hb.
  pose proof (resolve_range text (Z.min (fst st + chunkSize) (JsIndex.len text))) as He.
  unfold JsIndex.resolve in Hb, Hle at 2.
  destruct (Z.ltb_spec (fst st) 0); lia.
Qed.

Lemma chunkStep_iter_below (text : string) (chunkSize overlap : Z) (n : nat) :
  0 < overlap -> text <> "" ->
  fst (Nat.iter n (chunkStep text chunkSize overlap) (0, [])) < JsIndex.len text /\
  length (snd (Nat.iter n (chunkStep text chunkSize overlap) (0, []))) = n.
Proof.
  intros Hov Hne. induction n as [|n [IH1 IH2]].
  - simpl. split; [|reflexivity]. unfold JsIndex.len. destruct text; [contradiction|simpl; lia].
  - simpl Nat.iter. split; [now apply chunkStep_below|].
    unfold chunkStep at 1. simpl. rewrite length_app, IH2. simpl. lia.
Qed.

Lemma chunkLoop_running (fuel : nat) (text : string) (chunkSize overlap : Z)
    (st : Z * list string) :
  0 < overlap -> fst st < JsIndex.len text ->
  chunkLoop fuel text chunkSize overlap st = None.
Proof.
  intros Hov. revert st. induction fuel as [|fuel IH]; intros st Hst; cbn [chunkLoop]; cbv zeta.
  - apply Z.ltb_lt in Hst. now rewrite Hst.
  - pose proof (chunkStep_below text chunkSize overlap st Hov Hst) as Hnext.
    apply Z.ltb_lt in Hst. rewrite Hst.
    destruct (Z.leb_spec (JsIndex.len text) (fst (chunkStep text chunkSize overlap st))); [lia|].
    now apply IH.
Qed.

(** X15. The chunking loop of the upload route returns the empty list for the
    empty text and never ends for any other text when the overlap is
    positive (as it is in the route, 200): a turn that reaches the end of
    the text sets [start] back to the overlap before the end, so [start]
    stays below the length of the text after every turn, while each turn
    pushes one more chunk. However many turns are allowed, the function
    has not returned. *)
Theorem chunking_never_leaves_its_loop (text : string) (chunkSize overlap : Z) :
  (forall fuel, createTextChunks fuel "" chunkSize overlap = Some []) /\
  (0 < overlap -> text <> "" ->
   (forall n,
      fst (Nat.iter n (chunkStep text chunkSize overlap) (0, [])) < JsIndex.len text /\
      length (snd (Nat.iter n (chunkStep text chunkSize overlap) (0, []))) = n) /\
   (forall fuel, createTextChunks fuel text chunkSize overlap = None)).
Proof.
  split.
  - intros [|fuel]; reflexivity.
  - intros Hov Hne. split.
    + intros n. now apply chunkStep_iter_below.
    + intros fuel. unfold createTextChunks. rewrite chunkLoop_running; [reflexivity|exact Hov|].
      simpl. unfold JsIndex.len. destruct text; [contradiction|simpl; lia].
Qed.

Lemma lastIndexFrom_range (s : string) (c : ascii) (i found : Z) :
  JsIndex.lastIndexFrom i s c found = found \/
  i <= JsIndex.lastIndexFrom i s c found < i + JsIndex.len s.
Proof.
  revert i found. induction s as [|d s IH]; intros i found; simpl; [now left|].
  assert (Hlen : JsIndex.len (String d s) = 1 + JsIndex.len s).
  { unfold JsIndex.len. simpl String.length. lia. }
  assert (Hpos : 0 <= JsIndex.len s) by (unfold JsIndex.len; lia).
  rewrite Hlen.
  destruct (IH (i + 1) (if Ascii.eqb d c then i else found)) as [Heq|Hin]; [|right; lia].
  rewrite Heq. destruct (Ascii.eqb d c); [right; lia|now left].
Qed.

Lemma lastIndexOf_range (s : string) (c : ascii) :
  -1 <= JsIndex.lastIndexOf s c < JsIndex.len s.
Proof.
  unfold JsIndex.lastIndexOf.
  assert (Hpos : 0 <= JsIndex.len s) by (unfold JsIndex.len; lia).
  destruct (lastIndexFrom_range s c 0 (-1)) as [->|Hin]; lia.
Qed.

Lemma slice_len_inner (s : string) (b e : Z) :
  0 <= b <= e -> e <= JsIndex.len s -> JsIndex.len (JsIndex.slice s b e) = e - b.
Proof.
  intros Hbe He. rewrite slice_len. unfold JsIndex.resolve.
  destruct (Z.ltb_spec b 0), (Z.ltb_spec e 0); lia.
Qed.

(** A turn that does not reach the end of the text moves [start] on by
    at least 302 and at most 800 characters. *)
Lemma chunkStep_inner (text : string) (st : Z * list string) :
  0 <= fst st -> fst st + 1000 < JsIndex.len text ->
  fst st + 302 <= fst (chunkStep text 1000 200 st) <= fst st + 800.
Proof.
  intros H0 Hend. unfold chunkStep, chunkAt. cbn [fst]. cbv zeta.
  rewrite Z.min_l by lia.
  assert (Hlt : (fst st + 1000 <? JsIndex.len text) = true) by (apply Z.ltb_lt; lia).
  rewrite Hlt.
  set (chunk := JsIndex.slice text (fst st) (fst st + 1000)).
  assert (Hc : JsIndex.len chunk = 1000).
  { subst chunk. rewrite slice_len_inner; lia. }
  pose proof (lastIndexOf_range chunk "."%char) as Hp.
  pose proof (lastIndexOf_range chunk (ascii_of_nat 10)) as Hn.
  destruct (Z.ltb_spec 1000 (2 * Z.max (JsIndex.lastIndexOf chunk ".")
                                       (JsIndex.lastIndexOf chunk (ascii_of_nat 10)))) as [Hb|Hb].
  - rewrite slice_len_inner; lia.
  - lia.
Qed.

(** A turn that reaches the end of the text takes the rest of the text
    and leaves [start] 200 characters before the end. *)
Lemma chunkStep_final (text : string) (st : Z * list string) :
  0 <= fst st < JsIndex.len text -> JsIndex.len text <= fst st + 1000 ->
  chunkStep text 1000 200 st
  = (JsIndex.len text - 200,
     snd st ++ [Js.trim (JsIndex.slice text (fst st) (JsIndex.len text))]).
Proof.
  intros H0 Hend. unfold chunkStep, chunkAt. cbv zeta.
  rewrite Z.min_r by lia. rewrite Z.ltb_irrefl.
  rewrite slice_len_inner by lia. f_equal. lia.
Qed.

Lemma chunkStep_reaches_tail (m : nat) (text : string) (st : Z * list string) :
  200 <= JsIndex.len text -> 0 <= fst st < JsIndex.len text ->
  (Z.to_nat (JsIndex.len text - fst st) <= m)%nat ->
  exists n, fst (Nat.iter n (chunkStep text 1000 200) st) = JsIndex.len text - 200.
Proof.
  intros Hlen. revert st. induction m as [|m IH]; intros st Hst Hm; [lia|].
  destruct (Z.le_gt_cases (JsIndex.len text) (fst st + 1000)) as [Hend|Hmid].
  - exists 1%nat. change (fst (chunkStep text 1000 200 st) = JsIndex.len text - 200).
    now rewrite chunkStep_final.
  - pose proof (chunkStep_inner text st ltac:(lia) ltac:(lia)) as Hstep.
    destruct (IH (chunkStep text 1000 200 st)) as [n Hn]; [lia|lia|].
    exists (S n). now rewrite Nat.iter_succ_r.
Qed.

(** X16. With the route's parameters (chunks of 1000 characters, overlap 200)
    and a text of at least 200 characters, the loop reaches the state in
    which [start] lies 200 characters before the end of the text and
    stays in it: from then on every turn pushes the same chunk, the last
    200 characters of the text, trimmed. *)
Theorem chunking_repeats_the_tail (text : string) :
  200 <= JsIndex.len text ->
  exists n, forall k, (n <= k)%nat ->
    fst (Nat.iter k (chunkStep text 1000 200) (0, [])) = JsIndex.len text - 200 /\
    snd (Nat.iter (S k) (chunkStep text 1000 200) (0, []))
    = snd (Nat.iter k (chunkStep text 1000 200) (0, []))
      ++ [Js.trim (JsIndex.slice text (JsIndex.len text - 200) (JsIndex.len text))].
Proof.
  intros Hlen.
  destruct (chunkStep_reaches_tail (Z.to_nat (JsIndex.len text)) text (0, []))
    as [n Hn]; [exact Hlen|simpl; lia|simpl; lia|].
  exists n.
  assert (Hstay : forall k, (n <= k)%nat ->
            fst (Nat.iter k (chunkStep text 1000 200) (0, [])) = JsIndex.len text - 200).
  { induction 1 as [|k Hk IH]; [exact Hn|].
    simpl Nat.iter. rewrite chunkStep_final; [reflexivity|lia|lia]. }
  intros k Hk. split; [now apply Hstay|].
  simpl Nat.iter. rewrite chunkStep_final; rewrite ?(Hstay k Hk); [reflexivity|lia|lia].
Qed.

(** ** Extraction and chunking of an uploaded document *)

Lemma chunking_loop_runs_on (fuel : nat) (text : string) (chunkSize overlap : Z) :
  0 < overlap -> text <> "" -> createTextChunks fuel text chunkSize overlap = None.
Proof.
  intros Hov Hne. unfold createTextChunks. rewrite chunkLoop_running; [reflexivity|exact Hov|].
  simpl. unfold JsIndex.len. destruct text; [contradiction|simpl; lia].
Qed.

(** X17. [extractAndChunkPDF] answers 0, with the tables as they were, when
    the extraction throws or yields fewer than 100 characters once
    trimmed. For any longer text it does not return: the text goes to the
    chunking loop, which never ends on it. So in no case does it store a
    chunk or mark the document as processed. *)
Theorem extraction_stores_no_chunk {E} `{Extraction E} (fuel : nat)
    (filePath documentId : string) (w : LibraryWorld E) :
  extractAndChunkPDF fuel filePath documentId w =
  match extractText filePath (outside w) with
  | (Thrown _, e) => Some (0, mkLibraryWorld (library w) e)
  | (Returned stdout, e) =>
      if JsIndex.len (Js.trim stdout) <? 100 then Some (0, mkLibraryWorld (library w) e)
      else None
  end.
Proof.
  unfold extractAndChunkPDF.
  destruct (extractText filePath (outside w)) as [[stdout|m] e]; [|reflexivity].
  cbv zeta. destruct (String.eqb_spec (Js.trim stdout) "") as [Hempty|Hne].
  - rewrite Hempty. reflexivity.
  - simpl orb. destruct (JsIndex.len (Js.trim stdout) <? 100); [reflexivity|].
    rewrite chunking_loop_runs_on; [reflexivity|lia|exact Hne].
Qed.

(** ** Deleting a data file *)

Lemma filter_by_remaining_ids (id : string) (ids : list string) (files : list FarmDataFile) :
  filter (fun f => fileId f ∈ ids) (filter (fun f => fileId f <> id) files)
  = filter (fun f => fileId f ∈ filter (fun i => i <> id) ids) files.
Proof.
  induction files as [|f r IH]; [reflexivity|].
  rewrite (filter_cons (fun f => fileId f <> id)), (filter_cons (fun f => fileId f ∈ filter _ ids)).
  destruct (decide (fileId f <> id)) as [Hne|Heq].
  - rewrite filter_cons, IH.
    destruct (decide (fileId f ∈ ids)) as [Hin|Hout].
    + rewrite decide_True; [reflexivity|]. apply list_elem_of_filter. now split.
    + rewrite decide_False; [reflexivity|].
      intros Hin. apply list_elem_of_filter in Hin as [_ Hin]. contradiction.
  - rewrite IH, decide_False; [reflexivity|].
    intros Hin. apply list_elem_of_filter in Hin as [Hne _]. contradiction.
Qed.

(** X18. Deleting a data file. For an identifier that is not on file the
    response is the failure and the store is as it was. Otherwise the row
    of that identifier is gone and everything else is as it was; the
    tabular path then selects as if the identifier had not been supplied,
    and asked for that identifier alone it answers that it has no data
    file, calling nothing outside. *)
Theorem farm_data_delete_then_select (id : string) (d : Db) :
  (id ∉ map fileId (farmDataFile d) ->
   deleteFarmData id d = (DeleteFailed "Failed to delete farm data file", d)) /\
  (id ∈ map fileId (farmDataFile d) ->
   let d' := snd (deleteFarmData id d) in
   fst (deleteFarmData id d) = Deleted /\
   farmDataFile d' = filter (fun f => fileId f <> id) (farmDataFile d) /\
   (id ∉ map fileId (farmDataFile d')) /\
   documentChunk d' = documentChunk d /\ webSearchCache d' = webSearchCache d /\
   chatMessage d' = chatMessage d /\ queryLog d' = queryLog d /\
   chatSession d' = chatSession d /\
   (forall ids,
      selectFarmDataFile ids (farmDataFile d')
      = selectFarmDataFile (filter (fun i => i <> id) ids) (farmDataFile d)) /\
   (forall (E : Type) (H : Collaborators E) (query : string) (e : E),
      processCSVQuery query [id] (mkWorld d' e)
      = (Returned (mkAnswer NO_FARM_DATA []), mkWorld d' e))).
Proof.
  unfold deleteFarmData. split.
  - intros Hout. rewrite bool_decide_eq_false_2 by exact Hout. reflexivity.
  - intros Hin. rewrite bool_decide_eq_true_2 by exact Hin. simpl.
    assert (Hgone : id ∉ map fileId (filter (fun f => fileId f <> id) (farmDataFile d))).
    { intros Hid. apply list_elem_of_fmap in Hid as (f & Hf & Hfin).
      apply list_elem_of_filter in Hfin as [Hne _]. congruence. }
    repeat split; try reflexivity; try exact Hgone.
    + intros ids. unfold selectFarmDataFile. now rewrite filter_by_remaining_ids.
    + intros E H query e.
      unfold processCSVQuery, tryCatch, findFirstFarmDataFile, readDb.
      unfold bind at 1. simpl. rewrite selectFarmDataFile_none; [reflexivity|].
      intros f Hf Hfid. apply list_elem_of_singleton in Hfid.
      apply list_elem_of_filter in Hf as [Hne _]. congruence.
Qed.

(** ** Deleting a document *)

Lemma filter_none {A} (P : A -> Prop) `{forall x, Decision (P x)} (l : list A) :
  (forall x, x ∈ l -> ~ P x) -> filter P l = [].
Proof.
  induction l as [|x l IH]; intros Hnone; [reflexivity|].
  rewrite filter_cons, decide_False by (apply Hnone; left).
  apply IH. intros y Hy. apply Hnone. now right.
Qed.

Lemma omap_cons_eq {A B} (f : A -> option B) (x : A) (l : list A) :
  omap f (x :: l) = match f x with Some y => y :: omap f l | None => omap f l end.
Proof. reflexivity. Qed.

(** The chunks read with their documents, when the chunk rows of [id]
    are removed and the lookup of documents changes at most at [id]. *)
Lemma joined_without (id : string) (docs docs' : gmap string DocumentRow)
    (rows : list ChunkRow) :
  (forall i, i <> id -> docs' !! i = docs !! i) ->
  joinedChunks (mkLibrary docs' (filter (fun row => rowDocumentId row <> id) rows))
  = filter (fun c => documentId c <> id) (joinedChunks (mkLibrary docs rows)).
Proof.
  intros Hsame. unfold joinedChunks. cbn [documentTable chunkTable].
  induction rows as [|row rows IH]; [reflexivity|].
  rewrite filter_cons, (omap_cons_eq _ row rows).
  destruct (decide (rowDocumentId row <> id)) as [Hne|Heq].
  - rewrite omap_cons_eq, (Hsame _ Hne).
    destruct (docs !! rowDocumentId row) as [doc|]; [|exact IH].
    rewrite filter_cons, decide_True by exact Hne. now rewrite IH.
  - destruct (docs !! rowDocumentId row) as [doc|]; [|exact IH].
    rewrite filter_cons, decide_False by exact Heq. exact IH.
Qed.

(** X19. Deleting a document. The response is a success exactly when the
    document was on file, but its chunks are deleted either way. After
    the request the chunks the chat route can read are those of the other
    documents, in their order; none belongs to the deleted document, so a
    question put to that document alone is answered by the web path. *)
Theorem document_delete_removes_chunks (id : string) (lib : Library) :
  let lib' := snd (deleteDocument id lib) in
  (fst (deleteDocument id lib) = Deleted <-> is_Some (documentTable lib !! id)) /\
  chunkTable lib' = filter (fun row => rowDocumentId row <> id) (chunkTable lib) /\
  documentTable lib' !! id = None /\
  joinedChunks lib' = filter (fun c => documentId c <> id) (joinedChunks lib) /\
  (forall c, c ∈ joinedChunks lib' -> documentId c <> id) /\
  (forall (E : Type) (H : Collaborators E) (query : string) (w : World E),
     documentChunk (db w) = joinedChunks lib' ->
     processRAGQuery query [id] w = processWebSearch query w).
Proof.
  intros lib'.
  assert (Hjoin : joinedChunks lib' = filter (fun c => documentId c <> id) (joinedChunks lib)).
  { subst lib'. unfold deleteDocument. destruct lib as [docs rows]. simpl.
    destruct (docs !! id) eqn:Hdoc; simpl.
    - apply joined_without. intros i Hi. apply lookup_delete_ne. congruence.
    - now apply joined_without. }
  assert (Hnone : forall c, c ∈ joinedChunks lib' -> documentId c <> id).
  { intros c Hc. rewrite Hjoin in Hc. now apply list_elem_of_filter in Hc as [Hne _]. }
  split; [|split; [|split; [|split; [exact Hjoin|split; [exact Hnone|]]]]].
  - unfold deleteDocument. destruct (documentTable lib !! id) eqn:Hdoc; simpl.
    + split; eauto.
    + split; [discriminate|]. intros [x Hx]. discriminate.
  - subst lib'. unfold deleteDocument. destruct (documentTable lib !! id); reflexivity.
  - subst lib'. unfold deleteDocument. destruct (documentTable lib !! id) eqn:Hdoc; simpl.
    + apply lookup_delete_eq.
    + exact Hdoc.
  - intros E H query w Hdb. rewrite processRAGQuery_cases.
    replace (candidates [id] (db w)) with (@nil DocumentChunk); [reflexivity|].
    unfold candidates. rewrite Hdb.
    replace (filter (fun c => documentId c ∈ [id]) (joinedChunks lib')) with (@nil DocumentChunk);
      [reflexivity|].
    symmetry. apply filter_none. intros c Hc Hin.
    apply list_elem_of_singleton in Hin. now apply Hnone in Hc.
Qed.

(** * The further properties on the example worlds *)

Lemma web_lookup_then_reuse_witness :
  isMiss "mastitis" (cacheWorld 3601000) /\
  webSearchCache
    (db (snd (processWebSearch "mastitis"
                (mkWorld (db (snd (processWebSearch "mastitis" (cacheWorld 3601000))))
                         (logSearch "dairy farming mastitis" 5 (ext (cacheWorld 3601000)))))))
  !! "mastitis"
  = Some (mkCacheEntry [mastitisResult] 3602000 2).
Proof.
  assert (Hmiss : isMiss "mastitis" (cacheWorld 3601000)).
  { right. exists cachedEntry. split; [vm_compute; reflexivity|]. vm_compute. discriminate. }
  split; [exact Hmiss|].
  pose proof (web_lookup_then_reuse "mastitis" (cacheWorld 3601000) (Some [mastitisResult])
                (logSearch "dairy farming mastitis" 5 (ext (cacheWorld 3601000)))
                (logSearch "dairy farming mastitis" 5 (ext (cacheWorld 3601000)))
                Hmiss) as Hthm.
  cbv zeta in Hthm. destruct Hthm as [_ Hrow]; [vm_compute; reflexivity|vm_compute; reflexivity|].
  rewrite Hrow. vm_compute. reflexivity.
Defined.

Lemma empty_search_result_is_cached_witness :
  isMiss "water" hybridWorld /\
  fst (processWebSearch "water" hybridWorld) = Returned (mkAnswer NO_WEB_RESULTS []) /\
  searchLog (ext (snd (processWebSearch "water" hybridWorld))) = [("dairy farming water", 5)].
Proof.
  assert (Hmiss : isMiss "water" hybridWorld) by (left; vm_compute; reflexivity).
  split; [exact Hmiss|].
  pose proof (empty_search_result_is_cached "water" hybridWorld (Some [])
                (logSearch "dairy farming water" 5 (ext hybridWorld))
                (logSearch "dairy farming water" 5 (ext hybridWorld)) Hmiss) as Hthm.
  cbv zeta in Hthm. destruct Hthm as [Hfirst _]; [vm_compute; reflexivity|reflexivity|].
  rewrite Hfirst. split; vm_compute; reflexivity.
Defined.

Lemma completion_failure_keeps_cached_results_witness :
  isMiss "mastitis" offlineWorld /\
  fst (processWebSearch "mastitis" offlineWorld)
  = Returned (mkAnswer (webErrorText "model offline") []) /\
  webSearchCache (db (snd (processWebSearch "mastitis" offlineWorld))) !! "mastitis"
  = Some (mkCacheEntry [mastitisResult] 1000 1).
Proof.
  assert (Hmiss : isMiss "mastitis" offlineWorld) by (left; vm_compute; reflexivity).
  split; [exact Hmiss|].
  rewrite (completion_failure_keeps_cached_results "mastitis" offlineWorld [mastitisResult]
             (logSearch "dairy farming mastitis" 5 (ext offlineWorld))
             (tick (logSearch "dairy farming mastitis" 5 (ext offlineWorld)))
             "model offline" Hmiss);
    [split; vm_compute; reflexivity|vm_compute; reflexivity|discriminate|vm_compute; reflexivity].
Defined.

Lemma csv_path_edge_cases_witness :
  processCSVQuery "average milk yield" [] brokenPythonWorld
  = (Returned (mkAnswer NO_FARM_DATA []), brokenPythonWorld) /\
  fst (processCSVQuery "average milk yield" ["A"] brokenPythonWorld)
  = Returned (mkAnswer (csvErrorText "python3: command not found") []).
Proof.
  split.
  - destruct (csv_path_edge_cases "average milk yield" [] brokenPythonWorld) as [Hnone _].
    apply Hnone. intros f _ Hin. now apply elem_of_nil in Hin.
  - destruct (csv_path_edge_cases "average milk yield" ["A"] brokenPythonWorld) as [_ Hsome].
    destruct (Hsome fileA) as [Hthrow _]; [vm_compute; reflexivity|].
    rewrite (Hthrow "python3: command not found" (tick (ext brokenPythonWorld)));
      vm_compute; reflexivity.
Defined.

Lemma hybrid_sources_carry_priority_witness :
  exists a,
    fst (processHybridQuery "water" ["d1"] silentHybridWorld) = Returned a /\
    map priority (sources a) = [Some high].
Proof.
  pose (w1 := snd (processRAGQuery "water" ["d1"] silentHybridWorld)).
  pose (w2 := snd (processWebSearch "water" w1)).
  destruct (hybrid_sources_carry_priority "water" ["d1"] silentHybridWorld
              (mkAnswer "Answer from the manual" [mkSource (DocumentSource "manual.pdf" 0) None])
              (mkAnswer NO_WEB_RESULTS []) w1 w2 None (tick (ext w2)))
    as (a & Hrun & _ & Hprio & _);
    [vm_compute; reflexivity|vm_compute; reflexivity|vm_compute; reflexivity|].
  exists a. rewrite Hrun. split; [reflexivity|exact Hprio].
Defined.

Lemma hybrid_fallback_cites_web_results_twice_witness :
  isMiss "mastitis" (cacheWorld 3601000) /\
  fst (processHybridQuery "mastitis" [] (cacheWorld 3601000))
  = Returned
      (mkAnswer "Treat early."
         [mkSource (WebSearchSource "Mastitis control" "https://example.org/mastitis") (Some high);
          mkSource (WebSearchSource "Mastitis control" "https://example.org/mastitis")
            (Some medium)]) /\
  searchLog (ext (snd (processHybridQuery "mastitis" [] (cacheWorld 3601000))))
  = [("dairy farming mastitis", 5)].
Proof.
  assert (Hmiss : isMiss "mastitis" (cacheWorld 3601000)).
  { right. exists cachedEntry. split; [vm_compute; reflexivity|]. vm_compute. discriminate. }
  split; [exact Hmiss|].
  pose (e1 := logSearch "dairy farming mastitis" 5 (ext (cacheWorld 3601000))).
  rewrite (hybrid_fallback_cites_web_results_twice "mastitis" [] (cacheWorld 3601000)
             [mastitisResult] (Some "Treat early.") (Some "Treat early.") (Some "Treat early.")
             e1 (tick e1) (tick (tick e1)) (tick (tick (tick e1))));
    [split; vm_compute; reflexivity|left; reflexivity|exact Hmiss|vm_compute; reflexivity
    |discriminate|vm_compute; reflexivity|vm_compute; reflexivity|vm_compute; reflexivity
    |vm_compute; reflexivity].
Defined.

Lemma outer_white_space_matches_every_chunk_witness :
  (0 < score (scoreChunk (queryKeywords " zebra") waterChunk))%nat /\
  relevantChunks "zebra " [waterChunk] <> [].
Proof.
  split.
  - destruct (outer_white_space_matches_every_chunk " zebra") as [Hpos _].
    + left. exists " "%char, "zebra". split; reflexivity.
    + apply Hpos.
  - destruct (outer_white_space_matches_every_chunk "zebra ") as (_ & _ & Hne).
    + right. exists "zebra", " "%char. split; reflexivity.
    + apply Hne. discriminate.
Defined.

Lemma rag_cites_supplied_documents_only_witness :
  fst (processRAGQuery "water" ["d1"] hybridWorld)
  = Returned (mkAnswer "Answer from the manual" [mkSource (DocumentSource "manual.pdf" 0) None]) /\
  ((exists r, mkSource (DocumentSource "manual.pdf" 0) None = resultSource r) \/
   (exists row, row ∈ documentChunk (db hybridWorld) /\ documentId row ∈ ["d1"] /\
                mkSource (DocumentSource "manual.pdf" 0) None
                = mkSource (DocumentSource (documentFileName row) (chunkIndex row)) None)).
Proof.
  split; [vm_compute; reflexivity|].
  apply (rag_cites_supplied_documents_only "water" ["d1"] hybridWorld
           (mkAnswer "Answer from the manual" [mkSource (DocumentSource "manual.pdf" 0) None])
           (mkWorld (db hybridWorld) (tick (ext hybridWorld)))).
  - vm_compute. reflexivity.
  - left.
Defined.

Lemma session_title_is_bounded_witness :
  sessionTitleOf "How much water does a cow need?" = "How much water does a cow need?" /\
  sessionTitleOf "What is the best way to treat mastitis in a herd of sixty cows?"
  = "What is the best way to treat mastitis in a herd o...".
Proof.
  split.
  - destruct (session_title_is_bounded "How much water does a cow need?") as [Hshort _].
    apply Hshort. vm_compute. lia.
  - destruct (session_title_is_bounded
                "What is the best way to treat mastitis in a herd of sixty cows?")
      as (_ & Hlong & _).
    destruct Hlong as [Htitle _]; [vm_compute; lia|].
    rewrite Htitle. reflexivity.
Defined.

Lemma chat_post_always_responds_witness :
  exists r w',
    POST (mkChatRequest "" "s1" [] []) ragOnlyWorld = (Returned r, w') /\
    r = BadRequest400 /\ w' = ragOnlyWorld.
Proof.
  destruct (chat_post_always_responds (mkChatRequest "" "s1" [] []) ragOnlyWorld)
    as (r & w' & Hpost & Hiff & Hsame).
  assert (Hr : r = BadRequest400) by (apply Hiff; left; reflexivity).
  exists r, w'. split; [exact Hpost|]. split; [exact Hr|]. exact (Hsame Hr).
Defined.

Lemma chat_post_persists_exchange_witness :
  let body := mkChatRequest "mastitis" "s1" [] [] in
  let w' := snd (POST body ragOnlyWorld) in
  map cmRole (chatMessage (db w')) = [user; assistant] /\
  length (queryLog (db w')) = 1%nat /\
  option_map sessionTitle (chatSession (db w') !! "s1") = Some "mastitis".
Proof.
  intros body w'.
  destruct (chat_post_persists_exchange body ragOnlyWorld
              (mkQueryResult "Treat early."
                 [mkSource (WebSearchSource "Mastitis control" "https://example.org/mastitis") None]
                 "rag")
              w')
    as (elapsed & t & Hmsgs & Hlog & _ & Hsess & _).
  { vm_compute. reflexivity. }
  rewrite Hmsgs, Hlog, Hsess. repeat split.
Defined.

Lemma general_chat_failure_reaches_caller_witness :
  let body := mkChatRequest "hello" "s1" [] [] in
  fst (POST body generalFailWorld) = Returned (ServerError500 "model offline") /\
  map cmRole (chatMessage (db (snd (POST body generalFailWorld)))) = [user] /\
  queryLog (db (snd (POST body generalFailWorld))) = [].
Proof.
  intros body.
  pose (d0 := mkDb [] [] ∅ [mkChatMessage "s1" user "hello" [] None None] []
                   (chatSession (db generalFailWorld))).
  pose (w1 := mkWorld d0 (tick (ext generalFailWorld))).
  pose proof (general_chat_failure_reaches_caller body generalFailWorld "general" "model offline"
                (ext generalFailWorld) (tick (tick (ext generalFailWorld))) w1) as Hthm.
  cbv zeta in Hthm. destruct Hthm as [_ Hpost].
  - discriminate.
  - discriminate.
  - exists (mkChatSession "New Conversation" 0). vm_compute. reflexivity.
  - reflexivity.
  - vm_compute. reflexivity.
  - intros Hin. repeat (apply elem_of_cons in Hin as [Heq|Hin]; [discriminate Heq|]).
    now apply elem_of_nil in Hin.
  - vm_compute. reflexivity.
  - rewrite Hpost. repeat split.
Defined.

Lemma chunking_never_leaves_its_loop_witness :
  createTextChunks 50 plainText 1000 200 = None /\
  fst (Nat.iter 50 (chunkStep plainText 1000 200) (0, [])) < JsIndex.len plainText.
Proof.
  destruct (chunking_never_leaves_its_loop plainText 1000 200) as [_ Hruns].
  destruct Hruns as [Hinv Hnone]; [lia|discriminate|].
  split; [apply Hnone|apply (Hinv 50%nat)].
Defined.

Lemma chunking_repeats_the_tail_witness :
  200 <= JsIndex.len plainText /\
  exists n, forall k, (n <= k)%nat ->
    fst (Nat.iter k (chunkStep plainText 1000 200) (0, [])) = 1300.
Proof.
  assert (Hlen : 200 <= JsIndex.len plainText) by (vm_compute; discriminate).
  split; [exact Hlen|].
  destruct (chunking_repeats_the_tail plainText Hlen) as [n Hn].
  exists n. intros k Hk. destruct (Hn k Hk) as [Hstart _]. rewrite Hstart.
  vm_compute. reflexivity.
Defined.

Lemma farm_data_delete_then_select_witness :
  "A" ∈ map fileId (farmDataFile (db farmWorld)) /\
  fst (deleteFarmData "A" (db farmWorld)) = Deleted /\
  selectFarmDataFile ["A"; "B"] (farmDataFile (snd (deleteFarmData "A" (db farmWorld))))
  = Some fileB /\
  deleteFarmData "Z" (db farmWorld) = (DeleteFailed "Failed to delete farm data file", db farmWorld).
Proof.
  assert (Hin : "A" ∈ map fileId (farmDataFile (db farmWorld))).
  { apply list_elem_of_further, list_elem_of_here. }
  split; [exact Hin|].
  destruct (farm_data_delete_then_select "A" (db farmWorld)) as [_ Hdel].
  specialize (Hdel Hin). cbv zeta in Hdel.
  destruct Hdel as (Hresp & _ & _ & _ & _ & _ & _ & _ & Hsel & _).
  split; [exact Hresp|]. split.
  - rewrite Hsel. vm_compute. reflexivity.
  - destruct (farm_data_delete_then_select "Z" (db farmWorld)) as [Hfail _].
    apply Hfail. intros Hz.
    repeat (apply elem_of_cons in Hz as [Heq|Hz]; [discriminate Heq|]).
    now apply elem_of_nil in Hz.
Defined.

Lemma document_delete_removes_chunks_witness :
  map chunkContent (joinedChunks (snd (deleteDocument "d1" exampleLibrary))) = ["Silage quality"] /\
  processRAGQuery "water" ["d1"]
    (mkWorld (mkDb (joinedChunks (snd (deleteDocument "d1" exampleLibrary))) [] ∅ [] [] ∅)
             (ext hybridWorld))
  = processWebSearch "water"
      (mkWorld (mkDb (joinedChunks (snd (deleteDocument "d1" exampleLibrary))) [] ∅ [] [] ∅)
               (ext hybridWorld)).
Proof.
  pose proof (document_delete_removes_chunks "d1" exampleLibrary) as Hthm.
  cbv zeta in Hthm. destruct Hthm as (_ & _ & _ & Hjoin & _ & Hrag).
  split.
  - rewrite Hjoin. vm_compute. reflexivity.
  - apply Hrag. reflexivity.
Defined.
